(** * Economic-indices pipeline: a shallow embedding of [app/main.py]

    The pipeline downloads two spreadsheets, normalises them, loads them into
    a raw warehouse table, casts them into a trusted table and joins the two
    trusted tables into a refined one.  Every function of [main.py] that the
    properties below talk about is transcribed here as a Rocq function with
    the name it has in the source.

    Conventions.
    - Python [str] values are modelled as byte strings ([string]); the only
      character tests the code performs ([A-Z], [a-z], [0-9], [_], [.xlsx],
      [icc]) are tests on ASCII bytes.
    - An exception is a value of [error]; a function that can raise returns
      a [res].
    - FLOAT64 values are IEEE binary64 numbers ([PrimFloat.float]); a nullable
      SQL value is an [option].
    - The set of names [set(os.listdir(..))] is a [gset string]; the datasets
      of the warehouse are a [gmap] from their identifier.
    - What the program reads of the outside world (directory listings, clock
      readings, the outcome of API calls, the current time) is an explicit
      argument; the casts and operators of the SQL engine follow its
      documentation. *)

From Stdlib Require Import ZArith List String Ascii Bool Lia.
From Stdlib Require Import Floats.PrimFloat Floats.SpecFloat Floats.FloatOps.
From stdpp Require Import base option list gmap sets strings pretty sorting.

Set Default Proof Using "Type".
Local Open Scope string_scope.
Local Open Scope list_scope.

(* ===================================================================== *)
(** * Part I: the program                                                *)
(* ===================================================================== *)

(** ** Exceptions and results *)

(** What a statement of the warehouse's SQL engine can fail with. *)
Inductive query_error : Type :=
  | BadDouble (s : string)      (* CAST(.. AS FLOAT64) of a malformed string *)
  | BadDate (s : string)        (* CAST(.. AS DATE) of a malformed string *)
  | BadTimestamp (s : string)   (* CAST(.. AS TIMESTAMP) of a malformed string *)
  | DivisionByZero
  | FloatOverflow
  | UnknownColumn (c : string).

(** The exceptions that reach the functions of [main.py]. *)
Inductive error : Type :=
  | TimeoutError (msg : string)          (* raised by [wait_for_file_download] *)
  | ValueError (msg : string)            (* pandas: missing sheet, length mismatch *)
  | FileNotFoundError (msg : string)
  | NotFound                             (* google.api_core.exceptions.NotFound *)
  | Conflict                             (* google.api_core.exceptions.Conflict *)
  | ApiError (code : nat)                (* any other google.api_core exception *)
  | QueryError (e : query_error)         (* a failed query job *)
  | OtherError (code : nat).             (* selenium, OS, network, ... *)

Inductive res (A : Type) : Type :=
  | Ok (a : A)
  | Err (e : error).
Arguments Ok {A} a.
Arguments Err {A} e.

(** [res] is an error monad; the [x <- m; k] notation is stdpp's. *)
#[global] Instance res_ret : MRet res := fun A a => Ok a.
#[global] Instance res_bind : MBind res := fun A B k m =>
  match m with
  | Ok a => k a
  | Err e => Err e
  end.

Definition is_ok {A : Type} (m : res A) : bool :=
  match m with Ok _ => true | Err _ => false end.

(** [mapM] for [res]: the first failure aborts the whole traversal. *)
Fixpoint res_map {A B : Type} (f : A -> res B) (l : list A) : res (list B) :=
  match l with
  | [] => Ok []
  | a :: l' => b ← f a; bs ← res_map f l'; Ok (b :: bs)
  end.

(** ** Byte-string helpers (the [str] methods the code calls) *)

Module Str.

Definition in_range (lo hi : ascii) (c : ascii) : bool :=
  (nat_of_ascii lo <=? nat_of_ascii c)%nat && (nat_of_ascii c <=? nat_of_ascii hi)%nat.

Definition is_upper (c : ascii) : bool := in_range "A" "Z" c.
Definition is_lower (c : ascii) : bool := in_range "a" "z" c.
Definition is_digit (c : ascii) : bool := in_range "0" "9" c.

(** [c.lower()] on an ASCII byte. *)
Definition lower_char (c : ascii) : ascii :=
  if is_upper c then ascii_of_nat (nat_of_ascii c + 32) else c.

(** [s.lower()]. *)
Fixpoint lower (s : string) : string :=
  match s with
  | EmptyString => EmptyString
  | String c s' => String (lower_char c) (lower s')
  end.

(** [s.startswith(p)]. *)
Fixpoint startswith (p s : string) : bool :=
  match p, s with
  | EmptyString, _ => true
  | String a p', String b s' => Ascii.eqb a b && startswith p' s'
  | String _ _, EmptyString => false
  end.

(** [sub in s]. *)
Fixpoint contains (sub s : string) : bool :=
  startswith sub s ||
  match s with
  | EmptyString => false
  | String _ s' => contains sub s'
  end.

(** [s.endswith(suffix)]. *)
Fixpoint endswith (suffix s : string) : bool :=
  String.eqb suffix s ||
  match s with
  | EmptyString => false
  | String _ s' => endswith suffix s'
  end.

End Str.

(** ** Constants and index descriptors (the [indices] list of [main]) *)

Module Config.

Definition DOWNLOAD_DIR : string := "/downloads".
Definition PROJECT_ID : string := "ps-eng-dados-ds3x-448302".

(** The value of the ["transform_function"] entry. *)
Inductive transform_function : Type :=
  | transform_icc_data
  | transform_icf_data.

(** One entry of [indices]: the keys of the dictionary are the fields. *)
Record index : Type := mk_index {
  url : string;
  filename : string;
  raw_table : string;
  trusted_table : string;
  sheet : string;
  columns : list string;
  rows : nat;
  transform : transform_function
}.

Definition icc_columns : list string :=
  [ "mes"; "icc"; "icc_ate_10_sm"; "icc_mais_de_10_sm"; "icc_homens"; "icc_mulheres";
    "icc_ate_35_anos"; "icc_mais_de_35_anos"; "icea"; "icea_ate_10_sm"; "icea_mais_de_10_sm";
    "icea_homens"; "icea_mulheres"; "icea_ate_35_anos"; "icea_mais_de_35_anos"; "iec";
    "iec_ate_10_sm"; "iec_mais_de_10_sm"; "iec_homens"; "iec_mulheres"; "iec_ate_35_anos";
    "iec_mais_de_35_anos" ].

Definition icf_columns : list string :=
  [ "mes"; "icf"; "icf_ate_10_sm"; "icf_mais_de_10_sm";
    "emprego_atual"; "emprego_atual_ate_10_sm"; "emprego_atual_mais_de_10_sm";
    "perspectiva_profissional"; "perspectiva_profissional_ate_10_sm";
    "perspectiva_profissional_mais_de_10_sm";
    "renda_atual"; "renda_atual_ate_10_sm"; "renda_atual_mais_de_10_sm";
    "acesso_a_credito"; "acesso_a_credito_ate_10_sm"; "acesso_a_credito_mais_de_10_sm";
    "nivel_consumo_atual"; "nivel_consumo_atual_ate_10_sm"; "nivel_consumo_atual_mais_de_10_sm";
    "perspectiva_consumo"; "perspectiva_consumo_ate_10_sm"; "perspectiva_consumo_mais_de_10_sm";
    "momento_duraveis"; "momento_duraveis_ate_10_sm"; "momento_duraveis_mais_de_10_sm" ].

(** The names [main] composes from the run identifier [dataset_uuid]. *)
Definition raw_dataset_id (dataset_uuid : string) : string :=
  PROJECT_ID ++ ".economic_indices_raw_" ++ dataset_uuid.
Definition trusted_dataset (dataset_uuid : string) : string :=
  "economic_indices_trusted_" ++ dataset_uuid.
Definition refined_dataset (dataset_uuid : string) : string :=
  "economic_indices_refined_" ++ dataset_uuid.

Definition icc_index (dataset_uuid : string) : index :=
  {| url := "https://www.fecomercio.com.br/pesquisas/indice/icc";
     filename := "icc.xlsx";
     raw_table := raw_dataset_id dataset_uuid ++ ".icc_raw";
     trusted_table := PROJECT_ID ++ "." ++ trusted_dataset dataset_uuid ++ ".icc_trusted";
     sheet := "SÉRIE";
     columns := icc_columns;
     rows := 368;
     transform := transform_icc_data |}.

Definition icf_index (dataset_uuid : string) : index :=
  {| url := "https://www.fecomercio.com.br/pesquisas/indice/icf";
     filename := "icf.xlsx";
     raw_table := raw_dataset_id dataset_uuid ++ ".icf_raw";
     trusted_table := PROJECT_ID ++ "." ++ trusted_dataset dataset_uuid ++ ".icf_trusted";
     sheet := "Série Histórica";
     columns := icf_columns;
     rows := 181;
     transform := transform_icf_data |}.

Definition indices (dataset_uuid : string) : list index :=
  [ icc_index dataset_uuid; icf_index dataset_uuid ].

(** The run identifier [uuid.uuid4().hex[:6]] is made of hexadecimal digits
    in lower case. *)
Definition is_hex (c : ascii) : bool := Str.is_digit c || Str.in_range "a" "f" c.

Fixpoint all_hex (s : string) : bool :=
  match s with
  | EmptyString => true
  | String c s' => is_hex c && all_hex s'
  end.

End Config.

(** ** Column-name sanitisation ([sanitize_column_names]) *)

Module Sanitize.

(** The character class [[a-zA-Z0-9_]]. *)
Definition is_word_char (c : ascii) : bool :=
  Str.is_lower c || Str.is_upper c || Str.is_digit c || Ascii.eqb c "_".

(** [re.sub(r"[^a-zA-Z0-9_]+", "_", s)]: scanning left to right, every
    maximal run of characters outside the class is replaced by one
    underscore.  [in_run] says that the previous character belonged to a
    run that has already been replaced. *)
Fixpoint re_sub_run (in_run : bool) (s : string) : string :=
  match s with
  | EmptyString => EmptyString
  | String c s' =>
      if is_word_char c then String c (re_sub_run false s')
      else if in_run then re_sub_run true s'
      else String "_" (re_sub_run true s')
  end.

Definition re_sub (s : string) : string := re_sub_run false s.

(** The body of the list comprehension:
    [re.sub(r"[^a-zA-Z0-9_]+", "_", col).lower()]. *)
Definition sanitize (col : string) : string := Str.lower (re_sub col).

(** [df.columns = [... for col in df.columns]], on the list of names. *)
Definition sanitize_column_names (columns : list string) : list string :=
  map sanitize columns.

(** A string over [[a-z0-9_]]: what sanitisation produces. *)
Definition is_clean_char (c : ascii) : bool :=
  Str.is_lower c || Str.is_digit c || Ascii.eqb c "_".

Fixpoint is_clean (s : string) : bool :=
  match s with
  | EmptyString => true
  | String c s' => is_clean_char c && is_clean s'
  end.

End Sanitize.

(** ** Tabular normaliser ([process_excel_file]) *)

Module Normalizer.

(** A spreadsheet cell as pandas reads it, and the timestamp the
    normaliser adds. *)
Inductive cell : Type :=
  | CEmpty                      (* an empty cell: NaN in the frame *)
  | CText (s : string)
  | CNumber (x : float)
  | CDatetime (t : Z).          (* a datetime, microseconds since the epoch *)

(** A sheet is the rectangular range of its rows; a workbook maps sheet
    names to sheets. *)
Definition sheet : Type := list (list cell).
Definition workbook : Type := list (string * sheet).

(** A pandas DataFrame: the column labels and the rows. *)
Record dataframe : Type := mk_dataframe {
  columns : list string;
  rows : list (list cell)
}.

Fixpoint get_sheet (wb : workbook) (sheet_name : string) : option sheet :=
  match wb with
  | [] => None
  | (n, sh) :: wb' => if String.eqb n sheet_name then Some sh else get_sheet wb' sheet_name
  end.

(** [pd.read_excel(filepath, sheet_name=.., nrows=.., skiprows=.., header=0)]:
    the first [skiprows] rows are dropped, the next row gives the column
    labels (as many columns as it has cells), and at most [nrows] of the
    following rows are the data.  A sheet with nothing left after the
    skipped rows gives the empty frame.  This is the shape of the frame:
    which value pandas gives a cell (the type it infers for the column, the
    texts it reads as missing) is not described, and a cell stands for
    whatever pandas made of it. *)
Definition header_label (c : cell) : string :=
  match c with
  | CText s => s
  | _ => EmptyString
  end.

Definition read_excel (wb : workbook) (sheet_name : string)
    (nrows skiprows : nat) : res dataframe :=
  match get_sheet wb sheet_name with
  | None => Err (ValueError "Worksheet not found")
  | Some sh =>
      match drop skiprows sh with
      | [] => Ok (mk_dataframe [] [])
      | header :: data => Ok (mk_dataframe (map header_label header) (take nrows data))
      end
  end.

(** [df.columns = columns]: pandas refuses a list of another length. *)
Definition set_columns (df : dataframe) (new_columns : list string) : res dataframe :=
  if Nat.eqb (length (columns df)) (length new_columns)
  then Ok (mk_dataframe new_columns (rows df))
  else Err (ValueError "Length mismatch").

(** [sanitize_column_names(df)]. *)
Definition sanitize_column_names (df : dataframe) : dataframe :=
  mk_dataframe (Sanitize.sanitize_column_names (columns df)) (rows df).

(** [df[name] = value] with a scalar: every column labelled [name] is
    overwritten; when there is none, a new last column is added. *)
Fixpoint overwrite (name : string) (value : cell) (cols : list string)
    (row : list cell) : list cell :=
  match cols, row with
  | c :: cols', x :: row' =>
      (if String.eqb c name then value else x) :: overwrite name value cols' row'
  | _, _ => row
  end.

Definition has_column (name : string) (cols : list string) : bool :=
  existsb (String.eqb name) cols.

Definition set_item (df : dataframe) (name : string) (value : cell) : dataframe :=
  if has_column name (columns df)
  then mk_dataframe (columns df) (map (overwrite name value (columns df)) (rows df))
  else mk_dataframe (columns df ++ [name]) (map (fun r => r ++ [value]) (rows df)).

(** [skiprows = 1 if "icc" in table_id.lower() else 0]. *)
Definition skiprows_of (table_id : string) : nat :=
  if Str.contains "icc" (Str.lower table_id) then 1 else 0.

(** [process_excel_file(filepath, table_id, sheet_name, columns, num_rows)].
    [file] is the workbook stored at [filepath] and [utcnow] the reading of
    [datetime.utcnow()].  The [except] clause logs and re-raises, so every
    failure of the body is the failure of the function. *)
Definition process_excel_file (file : workbook) (table_id sheet_name : string)
    (cols : list string) (num_rows : nat) (utcnow : Z) : res dataframe :=
  let skiprows := skiprows_of table_id in
  df ← read_excel file sheet_name num_rows skiprows;
  df ← set_columns df cols;
  let df := sanitize_column_names df in
  Ok (set_item df "load_timestamp" (CDatetime utcnow)).

(** A small workbook: a header row of two cells and three data rows. *)
Definition demo_header : list cell := [CText "Mês"; CText "Índice"].
Definition demo_sheet : sheet :=
  [ demo_header;
    [CText "2024-01"; CNumber 100%float];
    [CText "2024-02"; CNumber 110%float];
    [CText "2024-03"; CNumber 121%float] ].
Definition demo_workbook : workbook := [("SÉRIE", demo_sheet)].

Definition nrows (r : res dataframe) : option nat :=
  match r with
  | Ok df => Some (length (rows df))
  | Err _ => None
  end.

End Normalizer.

(** ** Download watcher ([wait_for_file_download]) *)

Module Watcher.

(** [os.path.join(a, b)] for two components. *)
Definition path_join (a b : string) : string :=
  if Str.startswith "/" b then b
  else if String.eqb a EmptyString || Str.endswith "/" a then a ++ b
  else a ++ "/" ++ b.

(** What one call observes of the outside world: the directory and the
    clock before the click, whether the click raises, and then, for the
    i-th evaluation of the loop condition, the reading of [time.time()] and
    the directory listing of that iteration. *)
Record world : Type := mk_world {
  listing_before : list string;
  start_time : float;
  click : option error;
  clock : nat -> float;
  listing : nat -> list string
}.

(** [time.time() - start_time < timeout] at the i-th test. *)
Definition within_timeout (w : world) (timeout : float) (i : nat) : bool :=
  PrimFloat.ltb (PrimFloat.sub (clock w i) (start_time w)) timeout.

(** [new_files = files_after - files_before] in the i-th iteration. *)
Definition new_files (w : world) (files_before : gset string) (i : nat) : gset string :=
  list_to_set (listing w i) ∖ files_before.

(** The [while] loop from its i-th iteration on.  The [for] loop visits
    the set in the order of its elements and returns at the first name
    ending in [.xlsx].  [fuel] bounds the number of iterations that are
    run; [None] means the loop is still polling after that many. *)
Fixpoint poll (w : world) (folder : string) (timeout : float)
    (files_before : gset string) (fuel i : nat) : option (res string) :=
  match fuel with
  | O => None
  | S fuel' =>
      if within_timeout w timeout i then
        match List.find (Str.endswith ".xlsx") (elements (new_files w files_before i)) with
        | Some file => Some (Ok (path_join folder file))
        | None => poll w folder timeout files_before fuel' (S i)
        end
      else Some (Err (TimeoutError "Timeout waiting for file download."))
  end.

(** [wait_for_file_download(driver, download_xpath, folder, timeout)]. *)
Definition wait_for_file_download (w : world) (folder : string) (timeout : float)
    (fuel : nat) : option (res string) :=
  let files_before : gset string := list_to_set (listing_before w) in
  match click w with
  | Some e => Some (Err e)
  | None => poll w folder timeout files_before fuel 0
  end.

(** A file the watcher is waiting for, seen in the i-th iteration: listed
    then, not listed before the click, and ending in [.xlsx]. *)
Definition downloaded (w : world) (i : nat) (file : string) : Prop :=
  (file ∈ listing w i) /\ (file ∉ listing_before w) /\ Str.endswith ".xlsx" file = true.

(** A run of the watcher: the directory holds an older workbook; after the
    click a partial download shows up first and the finished file in the
    third iteration. *)
Definition demo_world : world :=
  {| listing_before := ["old.xlsx"];
     start_time := 1000%float;
     click := None;
     clock := fun i =>
       match i with
       | 0 => 1000.125 | 1 => 1001.25 | 2 => 1002.5 | 3 => 1003.75 | _ => 1100
       end%float;
     listing := fun i =>
       match i with
       | 0 => ["old.xlsx"]
       | 1 => ["old.xlsx"; "icc.xlsx.crdownload"]
       | _ => ["icc.xlsx"; "old.xlsx"]
       end |}.

End Watcher.

(** ** Layer provisioner ([create_bigquery_dataset], [create_trusted_dataset]) *)

Module Provisioner.

(** The warehouse as the client sees it: the datasets that exist (with
    their location), the log of the datasets this program has created, and
    the outcome of the coming API calls ([Some code]: the call fails with an
    error that is neither NotFound nor Conflict; an exhausted list means no
    further failure). *)
Record warehouse : Type := mk_warehouse {
  datasets : gmap string string;
  created : list string;
  faults : list (option nat)
}.

Definition api (A : Type) : Type := warehouse -> res A * warehouse.

(** Every API call consumes one outcome. *)
Definition next_fault (w : warehouse) : option nat * warehouse :=
  match faults w with
  | [] => (None, w)
  | f :: fs => (f, mk_warehouse (datasets w) (created w) fs)
  end.

(** [client.get_dataset(dataset_id)]. *)
Definition get_dataset (dataset_id : string) : api unit := fun w =>
  let '(f, w) := next_fault w in
  match f with
  | Some code => (Err (ApiError code), w)
  | None =>
      match datasets w !! dataset_id with
      | Some _ => (Ok (), w)
      | None => (Err NotFound, w)
      end
  end.

(** [client.create_dataset(dataset, exists_ok=..)]: a dataset that exists
    is a Conflict, which [exists_ok] turns into a lookup. *)
Definition create_dataset (dataset_id location : string) (exists_ok : bool) : api unit :=
  fun w =>
  let '(f, w) := next_fault w in
  match f with
  | Some code => (Err (ApiError code), w)
  | None =>
      match datasets w !! dataset_id with
      | Some _ => if exists_ok then get_dataset dataset_id w else (Err Conflict, w)
      | None =>
          (Ok (), mk_warehouse (<[dataset_id := location]> (datasets w))
                               (created w ++ [dataset_id]) (faults w))
      end
  end.

(** [create_bigquery_dataset(dataset_id)]: only NotFound is caught. *)
Definition create_bigquery_dataset (dataset_id : string) : api unit := fun w =>
  match get_dataset dataset_id w with
  | (Ok _, w) => (Ok (), w)
  | (Err NotFound, w) => create_dataset dataset_id "US" true w
  | (Err e, w) => (Err e, w)
  end.

(** [create_trusted_dataset(dataset_name)]. *)
Definition create_trusted_dataset (dataset_name : string) : api unit := fun w =>
  let dataset_id := (Config.PROJECT_ID ++ "." ++ dataset_name)%string in
  match get_dataset dataset_id w with
  | (Ok _, w) => (Ok (), w)
  | (Err NotFound, w) => create_dataset dataset_id "US" true w
  | (Err e, w) => (Err e, w)
  end.

(** The number of parts of an identifier, as [dataset_id.split(".")] counts
    them. *)
Fixpoint parts (dataset_id : string) : nat :=
  match dataset_id with
  | EmptyString => 1
  | String c s => (if Ascii.eqb c "." then 1 else 0) + parts s
  end.

(** A fully-qualified dataset identifier, [project.dataset]: what
    [bigquery.Dataset(dataset_id)] takes.  For a string of another form the
    constructor raises ValueError before any request is made; the functions
    above describe the calls on qualified identifiers only. *)
Definition qualified (dataset_id : string) : bool := Nat.eqb (parts dataset_id) 2.

(** The error is one of the injected API failures. *)
Definition other_cause (w : warehouse) (r : res unit) : Prop :=
  forall e, r = Err e -> exists code, e = ApiError code /\ Some code ∈ faults w.

(** What "idempotent create-if-absent" says of two calls in succession of
    a provisioning function [ensure] for the dataset [id]. *)
Definition idempotent_provision (ensure : api unit) (id : string) : Prop :=
  forall w r1 w1 r2 w2,
    ensure w = (r1, w1) ->
    ensure w1 = (r2, w2) ->
    (* the two calls create the dataset at most once *)
    (created w2 = created w \/ created w2 = created w ++ [id]) /\
    (* after a successful first call the second one changes nothing *)
    (r1 = Ok () -> datasets w2 = datasets w1 /\ created w2 = created w1) /\
    (* a call fails only for a cause other than the dataset existing (or
       missing): never with Conflict or NotFound *)
    other_cause w r1 /\ other_cause w1 r2 /\
    (* so, the API working, neither call fails *)
    (faults w = [] -> r1 = Ok () /\ r2 = Ok () /\ w2 = w1).

(** A warehouse without datasets in which every request succeeds. *)
Definition empty_warehouse : warehouse := mk_warehouse ∅ [] [].

End Provisioner.

(** ** The SQL engine: values, casts and operators the queries use *)

Module Sql.

(** *** FLOAT64 *)

Definition zero : float := 0%float.
Definition hundred : float := 100%float.

(** The nearest binary64 number to [m * 2^e] (ties to even), signed. *)
Definition round_binary (negative : bool) (m : positive) (e : Z) : float :=
  SF2Prim (binary_round prec emax negative m e).

(** The nearest binary64 number to [m * 10^e10] for a mantissa [m >= 0].
    A negative exponent divides: the quotient is computed to more than 64
    bits and a sticky bit records a remainder, which is enough for the
    final rounding to be the rounding of the exact quotient. *)
Definition decimal_to_float (negative : bool) (m e10 : Z) : float :=
  match m with
  | Zpos p =>
      if (400 <? e10)%Z then (if negative then neg_infinity else infinity)
      else if (e10 + Z.log2 m <? -1200)%Z then (if negative then neg_zero else zero)
      else if (0 <=? e10)%Z then
        match (m * 10 ^ e10)%Z with
        | Zpos n => round_binary negative n 0
        | _ => zero
        end
      else
        let d := (10 ^ (- e10))%Z in
        let s := Z.max 0 (Z.log2 d - Z.log2 m + 66)%Z in
        let q := (Z.shiftl m s / d)%Z in
        let sticky := if (Z.shiftl m s mod d =? 0)%Z then 0%Z else 1%Z in
        match (2 * q + sticky)%Z with
        | Zpos n => round_binary negative n (- s - 1)
        | _ => zero
        end
  | _ => if negative then neg_zero else zero
  end.

Definition is_space (c : ascii) : bool :=
  let n := nat_of_ascii c in
  Nat.eqb n 32 || (Nat.leb 9 n && Nat.leb n 13).

Fixpoint lstrip (s : string) : string :=
  match s with
  | String c s' => if is_space c then lstrip s' else s
  | EmptyString => EmptyString
  end.

Fixpoint rstrip (s : string) : string :=
  match s with
  | EmptyString => EmptyString
  | String c s' =>
      match rstrip s' with
      | EmptyString => if is_space c then EmptyString else String c EmptyString
      | t => String c t
      end
  end.

Definition digit_value (c : ascii) : Z := Z.of_nat (nat_of_ascii c - 48).

(** The longest prefix of digits: its value, its length, and the rest. *)
Fixpoint read_digits (acc : Z) (len : nat) (s : string) : Z * nat * string :=
  match s with
  | String c s' =>
      if Str.is_digit c then read_digits (10 * acc + digit_value c) (S len) s'
      else (acc, len, s)
  | EmptyString => (acc, len, s)
  end.

(** An optional sign: whether it is a minus, and the rest. *)
Definition read_sign (s : string) : bool * string :=
  match s with
  | String "-" s' => (true, s')
  | String "+" s' => (false, s')
  | _ => (false, s)
  end.

(** A decimal literal [digits [. digits] [(e|E) [sign] digits]] with at
    least one mantissa digit: the mantissa as an integer and the decimal
    exponent. *)
Definition read_decimal (s : string) : option (Z * Z) :=
  let '(ip, ilen, r1) := read_digits 0 0 s in
  let '(m, flen, r2) :=
    match r1 with
    | String "." r => let '(m, total, r2) := read_digits ip ilen r in (m, total - ilen, r2)
    | _ => (ip, 0, r1)
    end in
  if Nat.eqb (ilen + flen) 0 then None
  else
    match r2 with
    | EmptyString => Some (m, (- Z.of_nat flen)%Z)
    | String c r3 =>
        if Ascii.eqb c "e" || Ascii.eqb c "E" then
          let '(eneg, r4) := read_sign r3 in
          match read_digits 0 0 r4 with
          | (_, O, _) => None
          | (e, _, EmptyString) =>
              Some (m, ((if eneg then - e else e) - Z.of_nat flen)%Z)
          | _ => None
          end
        else None
    end.

(** [CAST(s AS FLOAT64)] of a non-NULL string: surrounding white space is
    ignored; the string has the form of a floating point literal, or is
    [inf], [infinity] or [nan] in any case, with an optional sign; anything
    else is an error. *)
Definition cast_string_float64 (s : string) : res float :=
  let '(negative, body) := read_sign (rstrip (lstrip s)) in
  let word := Str.lower body in
  if String.eqb word "nan" then Ok nan
  else if String.eqb word "inf" || String.eqb word "infinity"
  then Ok (if negative then neg_infinity else infinity)
  else
    match read_decimal body with
    | Some (m, e10) => Ok (decimal_to_float negative m e10)
    | None => Err (QueryError (BadDouble s))
    end.

(** [CAST(v AS FLOAT64)] of a nullable string: NULL stays NULL. *)
Definition cast_float64 (v : option string) : res (option float) :=
  match v with
  | None => Ok None
  | Some s => x ← cast_string_float64 s; Ok (Some x)
  end.

(** [IS_NAN(x)], [IF(c, a, b)] with both branches already evaluated, and
    [IFNULL(a, b)]. *)
Definition IS_NAN (x : option float) : option bool :=
  match x with
  | None => None
  | Some f => Some (is_nan f)
  end.

Definition IFNULL {A : Type} (a b : option A) : option A :=
  match a with
  | None => b
  | Some _ => a
  end.

(** The binary operators on FLOAT64: IEEE arithmetic, except that dividing
    by zero is an error and so is a non-finite result of finite operands. *)
Definition checked (x y r : float) : res float :=
  if is_finite x && is_finite y && negb (is_finite r)
  then Err (QueryError FloatOverflow)
  else Ok r.

Definition f64_sub (x y : float) : res float := checked x y (x - y)%float.
Definition f64_mul (x y : float) : res float := checked x y (x * y)%float.
Definition f64_div (x y : float) : res float :=
  if (y =? zero)%float then Err (QueryError DivisionByZero)
  else checked x y (x / y)%float.

(** An operator applied to nullable operands: NULL if one of them is. *)
Definition lift2 (op : float -> float -> res float) (a b : option float)
    : res (option float) :=
  match a, b with
  | Some x, Some y => r ← op x y; Ok (Some r)
  | _, _ => Ok None
  end.

(** *** DATE and TIMESTAMP *)

Record date : Type := mk_date { year : Z; month : Z; day : Z }.

Record timestamp : Type := mk_timestamp {
  ts_date : date; ts_hour : Z; ts_minute : Z; ts_second : Z; ts_micros : Z
}.

Definition is_leap (y : Z) : bool :=
  ((y mod 4 =? 0) && negb (y mod 100 =? 0) || (y mod 400 =? 0))%Z.

Definition days_in_month (y m : Z) : Z :=
  if (m =? 2)%Z then (if is_leap y then 29 else 28)%Z
  else if ((m =? 4) || (m =? 6) || (m =? 9) || (m =? 11))%Z then 30%Z
  else 31%Z.

Definition valid_date (d : date) : bool :=
  ((1 <=? year d) && (year d <=? 9999) && (1 <=? month d) && (month d <=? 12)
   && (1 <=? day d) && (day d <=? days_in_month (year d) (month d)))%Z.

(** A date [YYYY-[M]M-[D]D] at the start of a string, and the rest. *)
Definition read_date (s : string) : option (date * string) :=
  match read_digits 0 0 s with
  | (y, 4, String "-" r1) =>
      match read_digits 0 0 r1 with
      | (m, (1 | 2), String "-" r2) =>
          match read_digits 0 0 r2 with
          | (d, (1 | 2), r3) =>
              let dt := mk_date y m d in
              if valid_date dt then Some (dt, r3) else None
          | _ => None
          end
      | _ => None
      end
  | _ => None
  end.

(** [CAST(s AS DATE)]. *)
Definition cast_date (v : option string) : res (option date) :=
  match v with
  | None => Ok None
  | Some s =>
      match read_date s with
      | Some (d, EmptyString) => Ok (Some d)
      | _ => Err (QueryError (BadDate s))
      end
  end.

(** A time of day [[H]H:[M]M:[S]S[.F]] with up to six fractional digits. *)
Definition read_time (s : string) : option (Z * Z * Z * Z) :=
  match read_digits 0 0 s with
  | (h, (1 | 2), String ":" r1) =>
      match read_digits 0 0 r1 with
      | (mi, (1 | 2), String ":" r2) =>
          match read_digits 0 0 r2 with
          | (sec, (1 | 2), r3) =>
              if ((h <? 24) && (mi <? 60) && (sec <? 60))%Z then
                match r3 with
                | EmptyString => Some (h, mi, sec, 0%Z)
                | String "." r4 =>
                    match read_digits 0 0 r4 with
                    | (f, flen, EmptyString) =>
                        if (1 <=? flen)%nat && (flen <=? 6)%nat
                        then Some (h, mi, sec, (f * 10 ^ Z.of_nat (6 - flen))%Z)
                        else None
                    | _ => None
                    end
                | _ => None
                end
              else None
          | _ => None
          end
      | _ => None
      end
  | _ => None
  end.

(** [CAST(s AS TIMESTAMP)]: a date, optionally followed by a blank or [T]
    and a time of day, in UTC. *)
Definition cast_timestamp (v : option string) : res (option timestamp) :=
  match v with
  | None => Ok None
  | Some s =>
      match read_date s with
      | Some (d, EmptyString) => Ok (Some (mk_timestamp d 0 0 0 0))
      | Some (d, String c r) =>
          if Ascii.eqb c " " || Ascii.eqb c "T" then
            match read_time r with
            | Some (h, mi, sec, us) => Ok (Some (mk_timestamp d h mi sec us))
            | None => Err (QueryError (BadTimestamp s))
            end
          else Err (QueryError (BadTimestamp s))
      | None => Err (QueryError (BadTimestamp s))
      end
  end.

(** [FORMAT_DATE('%Y-%m', d)]: the year in as many digits as it needs, a
    dash, and the month in two digits. *)
Definition format_year_month (d : date) : string :=
  (pretty (year d) ++ "-" ++ (if (month d <? 10)%Z then "0" else EmptyString) ++ pretty (month d))%string.

Definition FORMAT_DATE_Y_m (d : option date) : option string :=
  format_year_month <$> d.

(** The order of [ORDER BY .. ASC] on dates: NULL first. *)
Definition date_leb (a b : date) : bool :=
  ((year a <? year b) ||
   ((year a =? year b) &&
    ((month a <? month b) || ((month a =? month b) && (day a <=? day b)))))%Z.

Definition opt_date_leb (a b : option date) : bool :=
  match a, b with
  | None, _ => true
  | Some _, None => false
  | Some x, Some y => date_leb x y
  end.

(** *** Rows, tables and the store *)

Inductive value : Type :=
  | VString (s : option string)
  | VDate (d : option date)
  | VFloat64 (x : option float)
  | VTimestamp (t : option timestamp).

(** A row gives each column of the schema, in order, its value. *)
Definition row : Type := list (string * value).
Definition table : Type := list row.

Fixpoint column (r : row) (name : string) : option value :=
  match r with
  | [] => None
  | (n, v) :: r' => if String.eqb n name then Some v else column r' name
  end.

End Sql.

(** ** Trusted transformers ([transform_icc_data], [transform_icf_data]) *)

Module Trusted.
Import Sql.

(** A raw table has the all-STRING schema [main] uploads it with: a row
    gives each column a nullable string. *)
Definition raw_row : Type := list (string * option string).
Definition raw_table : Type := list raw_row.

Fixpoint raw_column (r : raw_row) (name : string) : option (option string) :=
  match r with
  | [] => None
  | (n, v) :: r' => if String.eqb n name then Some v else raw_column r' name
  end.

(** The four shapes of a SELECT item [<expression over c> AS c] in the two
    trusted queries. *)
Inductive rule : Type :=
  | CastDate            (* CAST(c AS DATE) *)
  | CastFloat64         (* CAST(c AS FLOAT64) *)
  | CastFloat64OrZero   (* IFNULL(IF(IS_NAN(CAST(c AS FLOAT64)), 0, CAST(c AS FLOAT64)), 0) *)
  | CastTimestamp.      (* CAST(c AS TIMESTAMP) *)

(** The value of an item on the raw value [v] of its column.  [IF]
    evaluates its condition and then only the branch it takes. *)
Definition eval_rule (r : rule) (v : option string) : res value :=
  match r with
  | CastDate => d ← cast_date v; Ok (VDate d)
  | CastFloat64 => x ← cast_float64 v; Ok (VFloat64 x)
  | CastFloat64OrZero =>
      c ← cast_float64 v;
      y ← match IS_NAN c with
          | Some true => Ok (Some zero)
          | _ => cast_float64 v
          end;
      Ok (VFloat64 (IFNULL y (Some zero)))
  | CastTimestamp => t ← cast_timestamp v; Ok (VTimestamp t)
  end.

Definition select_item (r : raw_row) (item : string * rule) : res (string * value) :=
  match raw_column r item.1 with
  | None => Err (QueryError (UnknownColumn item.1))
  | Some v => x ← eval_rule item.2 v; Ok (item.1, x)
  end.

(** [CREATE OR REPLACE TABLE .. AS SELECT <items> FROM raw]: the new
    content of the table, or the error of the query job, which leaves the
    table as it was. *)
Definition select_from (items : list (string * rule)) (raw : raw_table) : res table :=
  res_map (fun r => res_map (select_item r) items) raw.

Definition icc_items : list (string * rule) :=
  [ ("mes", CastDate);
    ("icc", CastFloat64);
    ("icc_ate_10_sm", CastFloat64);
    ("icc_mais_de_10_sm", CastFloat64);
    ("icc_homens", CastFloat64OrZero);
    ("icc_mulheres", CastFloat64OrZero);
    ("icc_ate_35_anos", CastFloat64OrZero);
    ("icc_mais_de_35_anos", CastFloat64OrZero);
    ("icea", CastFloat64);
    ("icea_ate_10_sm", CastFloat64);
    ("icea_mais_de_10_sm", CastFloat64);
    ("icea_homens", CastFloat64OrZero);
    ("icea_mulheres", CastFloat64OrZero);
    ("icea_ate_35_anos", CastFloat64OrZero);
    ("icea_mais_de_35_anos", CastFloat64OrZero);
    ("iec", CastFloat64);
    ("iec_ate_10_sm", CastFloat64);
    ("iec_mais_de_10_sm", CastFloat64);
    ("iec_homens", CastFloat64OrZero);
    ("iec_mulheres", CastFloat64OrZero);
    ("iec_ate_35_anos", CastFloat64OrZero);
    ("iec_mais_de_35_anos", CastFloat64OrZero);
    ("load_timestamp", CastTimestamp) ].

Definition icf_items : list (string * rule) :=
  [ ("mes", CastDate);
    ("icf", CastFloat64);
    ("icf_ate_10_sm", CastFloat64);
    ("icf_mais_de_10_sm", CastFloat64);
    ("emprego_atual", CastFloat64);
    ("emprego_atual_ate_10_sm", CastFloat64);
    ("emprego_atual_mais_de_10_sm", CastFloat64);
    ("perspectiva_profissional", CastFloat64);
    ("perspectiva_profissional_ate_10_sm", CastFloat64);
    ("perspectiva_profissional_mais_de_10_sm", CastFloat64);
    ("renda_atual", CastFloat64);
    ("renda_atual_ate_10_sm", CastFloat64);
    ("renda_atual_mais_de_10_sm", CastFloat64);
    ("acesso_a_credito", CastFloat64);
    ("acesso_a_credito_ate_10_sm", CastFloat64);
    ("acesso_a_credito_mais_de_10_sm", CastFloat64);
    ("nivel_consumo_atual", CastFloat64);
    ("nivel_consumo_atual_ate_10_sm", CastFloat64);
    ("nivel_consumo_atual_mais_de_10_sm", CastFloat64);
    ("perspectiva_consumo", CastFloat64);
    ("perspectiva_consumo_ate_10_sm", CastFloat64);
    ("perspectiva_consumo_mais_de_10_sm", CastFloat64);
    ("momento_duraveis", CastFloat64);
    ("momento_duraveis_ate_10_sm", CastFloat64);
    ("momento_duraveis_mais_de_10_sm", CastFloat64);
    ("load_timestamp", CastTimestamp) ].

(** [transform_icc_data(raw_table_id, trusted_dataset)] on the content
    [raw] of the raw table: the content the query gives to
    [<project>.<trusted_dataset>.icc_trusted]. *)
Definition transform_icc_data (raw : raw_table) : res table :=
  select_from icc_items raw.

(** [transform_icf_data(raw_table_id, trusted_dataset)], likewise for
    [<project>.<trusted_dataset>.icf_trusted]. *)
Definition transform_icf_data (raw : raw_table) : res table :=
  select_from icf_items raw.

(** The columns to which a rule set assigns the default-on-invalid
    policy. *)
Definition default_on_invalid (items : list (string * rule)) (c : string) : Prop :=
  (c, CastFloat64OrZero) ∈ items.

(** A raw icc row as the loader writes it: every cell is the text pandas
    prints for it, an empty cell being the text [nan]. *)
Definition demo_icc_raw_row (mes icc_homens : string) : raw_row :=
  map (fun c =>
         (c, Some (if String.eqb c "mes" then mes
                   else if String.eqb c "icc_homens" then icc_homens
                   else "101.5")))
      Config.icc_columns
  ++ [("load_timestamp", Some "2024-05-01 12:00:00.123456")].

(** A raw row whose [mes] cell is [mes] and whose other cells all hold the
    text [value]. *)
Definition demo_raw_row (cols : list string) (mes value : string) : raw_row :=
  map (fun c => (c, Some (if String.eqb c "mes" then mes else value))) cols
  ++ [("load_timestamp", Some "2024-05-01 12:00:00.123456")].

End Trusted.

(** ** Refined transformer ([transform_refined_data]) *)

Module Refined.
Import Sql.

(** What the query reads of a trusted table: [mes] and the index column. *)
Definition series : Type := list (option date * option float).

Definition read_series (index_column : string) (t : table) : res series :=
  res_map (fun r =>
    match column r "mes", column r index_column with
    | Some (VDate d), Some (VFloat64 x) => Ok (d, x)
    | Some (VDate _), Some _ => Err (QueryError (UnknownColumn index_column))
    | Some (VDate _), None => Err (QueryError (UnknownColumn index_column))
    | _, _ => Err (QueryError (UnknownColumn "mes"))
    end) t.

(** A row of the common table expressions [icc_data] and [icf_data]. *)
Record series_row : Type := mk_series_row {
  ano_mes : option string;
  indice : option float;
  prev : option float
}.

(** The window order [ORDER BY mes]. *)
Definition by_mes (a b : option date * option float) : Prop :=
  Is_true (opt_date_leb a.1 b.1).

#[global] Instance by_mes_dec : RelDecision by_mes :=
  fun a b => Is_true_dec (opt_date_leb a.1 b.1).

(** [LAG(x) OVER (ORDER BY mes)] along rows already in window order:
    [before] is the value of the preceding row, NULL for the first. *)
Fixpoint lag (before : option float) (rows : series) : list series_row :=
  match rows with
  | [] => []
  | (d, x) :: rows' => mk_series_row (FORMAT_DATE_Y_m d) x before :: lag x rows'
  end.

(** [SELECT FORMAT_DATE('%Y-%m', mes) AS ano_mes, x AS x_indice,
     LAG(x) OVER (ORDER BY mes) AS prev_x FROM t]. *)
Definition series_data (t : series) : list series_row :=
  lag None (merge_sort by_mes t).

(** [CASE WHEN prev IS NULL OR prev = 0 THEN NULL
     ELSE ((indice - prev) / prev) * 100 END]. *)
Definition variacao (indice prev : option float) : res (option float) :=
  match prev with
  | None => Ok None
  | Some p =>
      if (p =? zero)%float then Ok None
      else
        d ← lift2 f64_sub indice prev;
        q ← lift2 f64_div d prev;
        lift2 f64_mul q (Some hundred)
  end.

(** A row of the refined table. *)
Record refined_row : Type := mk_refined_row {
  r_ano_mes : string;
  icc_indice : option float;
  icc_variacao : option float;
  icf_indice : option float;
  icf_variacao : option float;
  load_timestamp : timestamp
}.

(** [FROM icc_data AS i JOIN icf_data AS f USING (ano_mes)]: the pairs
    of rows with the same non-NULL key. *)
Definition same_key (i f : series_row) : bool :=
  match ano_mes i, ano_mes f with
  | Some a, Some b => String.eqb a b
  | _, _ => false
  end.

Definition join (icc_data icf_data : list series_row) : list (series_row * series_row) :=
  i ← icc_data; f ← filter (fun f => Is_true (same_key i f)) icf_data; [(i, f)].

(** The SELECT list of [joined_data] together with the outer SELECT. *)
Definition joined_row (now : timestamp) (p : series_row * series_row) : res refined_row :=
  let '(i, f) := p in
  vi ← variacao (indice i) (prev i);
  vf ← variacao (indice f) (prev f);
  Ok (mk_refined_row (default EmptyString (ano_mes i)) (indice i) vi (indice f) vf now).

(** The final order [ORDER BY ano_mes ASC]. *)
Definition by_ano_mes (a b : refined_row) : Prop :=
  Is_true (String.leb (r_ano_mes a) (r_ano_mes b)).

#[global] Instance by_ano_mes_dec : RelDecision by_ano_mes :=
  fun a b => Is_true_dec (String.leb (r_ano_mes a) (r_ano_mes b)).

(** The whole query on the two series; [now] is [CURRENT_TIMESTAMP()]. *)
Definition refined_query (icc icf : series) (now : timestamp) : res (list refined_row) :=
  rows ← res_map (joined_row now) (join (series_data icc) (series_data icf));
  Ok (merge_sort by_ano_mes rows).

(** [transform_refined_data(trusted_dataset, refined_dataset)] on the
    contents of [icc_trusted] and [icf_trusted]: the content the query
    gives to [icf_icc_refined]. *)
Definition transform_refined_data (icc_trusted icf_trusted : table) (now : timestamp)
    : res (list refined_row) :=
  icc ← read_series "icc" icc_trusted;
  icf ← read_series "icf" icf_trusted;
  refined_query icc icf now.

(** The periods of a series and of a refined table. *)
Definition periods (t : series) : list string :=
  omap (fun r => FORMAT_DATE_Y_m r.1) t.

(** The periods of a trusted table: [FORMAT_DATE('%Y-%m', mes)] of its
    rows. *)
Definition table_periods (t : table) : list string :=
  omap (fun r => match column r "mes" with
                 | Some (VDate d) => FORMAT_DATE_Y_m d
                 | _ => None
                 end) t.

(** The value of the period before the [k]-th of a window: NULL for the
    first one. *)
Definition previous_value (window : series) (k : nat) : option float :=
  match k with
  | O => None
  | S k' => window !! k' ≫= snd
  end.

(** The percentage change in the words of the specification: undefined
    without a prior value or with a prior value of zero, and
    [(current - previous) / previous * 100] otherwise, in binary64. *)
Definition expected_change (current previous : option float) : option float :=
  match previous with
  | None => None
  | Some p =>
      if (p =? zero)%float then None
      else match current with
           | None => None
           | Some c => Some ((c - p) / p * 100)%float
           end
  end.

(** Three months of one index. *)
Definition demo_icc : series :=
  [ (Some (mk_date 2024 2 1), Some 125%float);
    (Some (mk_date 2024 1 1), Some 100%float);
    (Some (mk_date 2024 3 1), Some 150%float) ].

(** Two months of the other index. *)
Definition demo_icf : series :=
  [ (Some (mk_date 2024 1 1), Some 50%float);
    (Some (mk_date 2024 2 1), Some 75%float) ].

Definition demo_now : timestamp := mk_timestamp (mk_date 2024 5 1) 12 0 0 0.

(** The two series as trusted tables. *)
Definition demo_table (index_column : string) (t : series) : table :=
  map (fun r => [("mes", VDate r.1); (index_column, VFloat64 r.2);
                 ("load_timestamp", VTimestamp (Some demo_now))]) t.

Definition demo_icc_trusted : table := demo_table "icc" demo_icc.
Definition demo_icf_trusted : table := demo_table "icf" demo_icf.

End Refined.

(** ** Raw loader ([upload_to_bigquery]) *)

Module Loader.
Import Normalizer.

(** [SchemaField(name, field_type)]. *)
Record SchemaField : Type := mk_SchemaField {
  field_name : string;
  field_type : string
}.

(** [[SchemaField(name, "STRING") for name in df.columns]], the schema
    [main] hands to the loader. *)
Definition schema_of (df : dataframe) : list SchemaField :=
  map (fun name => mk_SchemaField name "STRING") (columns df).

(** The content of the raw tables of the warehouse, by table identifier. *)
Definition raw_store : Type := gmap string Trusted.raw_table.

(** The row the load job writes for a row of values: the fields of the
    schema take the values position by position. *)
Definition load_row (schema : list SchemaField) (r : list (option string))
    : Trusted.raw_row :=
  zip (map field_name schema) r.

Section Render.

(** [dataframe.astype(str)], row by row: for every cell the text pandas
    prints for it, or a missing value, which the load job writes as NULL.
    The text depends on the type pandas gave the column and on the version
    of pandas (an empty cell comes out as [nan], as [NaT] or stays missing),
    so the conversion is left open. *)
Variable astype_str : dataframe -> list (list (option string)).

Definition load_rows (schema : list SchemaField) (df : dataframe) : Trusted.raw_table :=
  map (load_row schema) (astype_str df).

(** [upload_to_bigquery(dataframe, table_id, schema)].  [job] is the
    outcome of the load job ([None] when it completes).  With
    [WRITE_APPEND] the rows are added after the rows the table holds, and a
    table that does not exist is created; a job that fails writes nothing.
    The [except] clause logs and re-raises. *)
Definition upload_to_bigquery (job : option error) (dataframe : dataframe)
    (table_id : string) (schema : list SchemaField) (store : raw_store)
    : res unit * raw_store :=
  match job with
  | Some e => (Err e, store)
  | None =>
      (Ok (), <[table_id := default [] (store !! table_id) ++ load_rows schema dataframe]> store)
  end.

End Render.

End Loader.

(** ** Run orchestrator ([main]) *)

Module Orchestrator.
Import Config.

(** The calls [main] makes to the outside world, in the order of the
    source.  What a stage computes is left out here: a stage either
    returns or raises, and which of the two is the environment's choice. *)
Inductive action : Type :=
  | MakeDirs
  | CreateBigqueryDataset (dataset_id : string)
  | CreateTrustedDataset (dataset_name : string)
  | SetupChromeDriver
  | DriverGet (url : string)
  | Sleep
  | WaitForFileDownload
  | ProcessExcelFile (table_id : string)
  | UploadToBigquery (table_id : string)
  | Transform (f : transform_function) (raw_table_id : string)
  | RemoveFile
  | TransformRefinedData
  | DriverQuit.

#[global] Instance transform_function_eq_dec : EqDecision transform_function.
Proof. solve_decision. Defined.

#[global] Instance action_eq_dec : EqDecision action.
Proof. solve_decision. Defined.

(** The environment says, for the n-th call of the run, whether it raises. *)
Definition environment : Type := nat -> option error.

(** A computation of the orchestrator: it extends the trace of the calls
    made so far and returns or raises. *)
Definition run (A : Type) : Type := environment -> list action -> res A * list action.

#[global] Instance run_ret : MRet run := fun A a env tr => (Ok a, tr).
#[global] Instance run_bind : MBind run := fun A B k m env tr =>
  match m env tr with
  | (Ok a, tr') => k a env tr'
  | (Err e, tr') => (Err e, tr')
  end.

Definition raise {A : Type} (e : error) : run A := fun env tr => (Err e, tr).

Definition perform (a : action) : run unit := fun env tr =>
  (match env (length tr) with
   | None => Ok ()
   | Some e => Err e
   end, tr ++ [a]).

(** [try: body finally: final]: [final] runs whatever [body] did; an
    exception of [final] replaces the outcome of [body]. *)
Definition try_finally {A : Type} (body : run A) (final : run unit) : run A :=
  fun env tr =>
  match body env tr with
  | (r, tr') =>
      match final env tr' with
      | (Ok _, tr'') => (r, tr'')
      | (Err e, tr'') => (Err e, tr'')
      end
  end.

(** [for x in l: f(x)]. *)
Fixpoint for_each {A : Type} (f : A -> run unit) (l : list A) : run unit :=
  match l with
  | [] => mret ()
  | a :: l' => _ ← f a; for_each f l'
  end.

(** The body of the [for index in indices] loop. *)
Definition process_index (idx : index) : run unit :=
  _ ← perform (DriverGet (url idx));
  _ ← perform Sleep;
  _ ← perform WaitForFileDownload;
  _ ← perform (ProcessExcelFile (raw_table idx));
  _ ← perform (UploadToBigquery (raw_table idx));
  _ ← perform (Transform (transform idx) (raw_table idx));
  perform RemoveFile.

(** [main()], from the acquisition of the driver on. *)
Definition with_driver (dataset_uuid : string) : run unit :=
  try_finally
    (_ ← for_each process_index (indices dataset_uuid);
     perform TransformRefinedData)
    (perform DriverQuit).

(** [main()].  [credentials] says whether [GOOGLE_APPLICATION_CREDENTIALS]
    is set and [dataset_uuid] is the run identifier that was drawn. *)
Definition main (credentials : bool) (dataset_uuid : string) : run unit :=
  _ ← perform MakeDirs;
  _ ← (if credentials then mret ()
       else raise (FileNotFoundError "Google credentials file not found."));
  _ ← perform (CreateBigqueryDataset (raw_dataset_id dataset_uuid));
  _ ← perform (CreateTrustedDataset (trusted_dataset dataset_uuid));
  _ ← perform (CreateTrustedDataset (refined_dataset dataset_uuid));
  _ ← perform SetupChromeDriver;
  with_driver dataset_uuid.

(** The driver was acquired in a run with the trace [tr]: the call of
    [setup_chrome_driver] was made and returned. *)
Definition driver_acquired (env : environment) (tr : list action) : Prop :=
  exists k, tr !! k = Some SetupChromeDriver /\ env k = None.

(** The number of times the driver was released. *)
Definition quits (tr : list action) : nat :=
  length (filter (fun a => a = DriverQuit) tr).

(** A computation only appends calls satisfying [P] to the trace. *)
Definition appends (P : action -> Prop) {A : Type} (m : run A) : Prop :=
  forall env tr, exists evs, (m env tr).2 = tr ++ evs /\ Forall P evs.

(** The calls of [main] before the driver exists. *)
Definition before_driver (dataset_uuid : string) : list action :=
  [ MakeDirs;
    CreateBigqueryDataset (Config.raw_dataset_id dataset_uuid);
    CreateTrustedDataset (Config.trusted_dataset dataset_uuid);
    CreateTrustedDataset (Config.refined_dataset dataset_uuid);
    SetupChromeDriver ].

End Orchestrator.

(** ** Predicates used in the further properties of Part III *)

Module Props.

(** Every character of [s] is outside the class [[a-zA-Z0-9_]]. *)
Fixpoint all_nonword (s : string) : bool :=
  match s with
  | EmptyString => true
  | String c s' => negb (Sanitize.is_word_char c) && all_nonword s'
  end.

(** A call of one of the two provisioning functions. *)
Inductive provision_call : Type :=
  | CallCreateBigqueryDataset (dataset_id : string)
  | CallCreateTrustedDataset (dataset_name : string).

Definition run_call (c : provision_call) : Provisioner.api unit :=
  match c with
  | CallCreateBigqueryDataset id => Provisioner.create_bigquery_dataset id
  | CallCreateTrustedDataset name => Provisioner.create_trusted_dataset name
  end.

(** The warehouse after a series of calls, whatever each of them returned. *)
Fixpoint run_calls (cs : list provision_call) (w : Provisioner.warehouse)
    : Provisioner.warehouse :=
  match cs with
  | [] => w
  | c :: cs' => run_calls cs' (run_call c w).2
  end.

(** The creation log is consistent: no dataset was created twice, and what
    was created exists. *)
Definition consistent_log (w : Provisioner.warehouse) : Prop :=
  NoDup (Provisioner.created w) /\
  forall id, id ∈ Provisioner.created w -> is_Some (Provisioner.datasets w !! id).

(** The three provisioning calls at the start of [main], the first failure
    ending them. *)
Definition provision_layers (dataset_uuid : string) : Provisioner.api unit := fun w =>
  match Provisioner.create_bigquery_dataset (Config.raw_dataset_id dataset_uuid) w with
  | (Err e, w1) => (Err e, w1)
  | (Ok _, w1) =>
      match Provisioner.create_trusted_dataset (Config.trusted_dataset dataset_uuid) w1 with
      | (Err e, w2) => (Err e, w2)
      | (Ok _, w2) =>
          Provisioner.create_trusted_dataset (Config.refined_dataset dataset_uuid) w2
      end
  end.

(** No two rows of a series have the same [mes]. *)
Definition distinct_mes (t : Refined.series) : Prop :=
  forall x y, x ∈ t -> y ∈ t -> x.1 = y.1 -> x = y.

(** The SELECT list of the query a descriptor's transform function runs. *)
Definition items_of (f : Config.transform_function) : list (string * Trusted.rule) :=
  match f with
  | Config.transform_icc_data => Trusted.icc_items
  | Config.transform_icf_data => Trusted.icf_items
  end.

(** The calls of one turn of the [for index in indices] loop. *)
Definition stages (idx : Config.index) : list Orchestrator.action :=
  [ Orchestrator.DriverGet (Config.url idx);
    Orchestrator.Sleep;
    Orchestrator.WaitForFileDownload;
    Orchestrator.ProcessExcelFile (Config.raw_table idx);
    Orchestrator.UploadToBigquery (Config.raw_table idx);
    Orchestrator.Transform (Config.transform idx) (Config.raw_table idx);
    Orchestrator.RemoveFile ].

(** The calls of [main] once the driver exists, the release apart. *)
Definition driver_stages (dataset_uuid : string) : list Orchestrator.action :=
  (Config.indices dataset_uuid ≫= stages) ++ [Orchestrator.TransformRefinedData].

(** The calls of a run of [main] in which nothing fails, in the order of
    the source, the release of the driver apart. *)
Definition plan (dataset_uuid : string) : list Orchestrator.action :=
  Orchestrator.before_driver dataset_uuid ++ driver_stages dataset_uuid.

(** The first of the [n] calls from position [pos] on that the environment
    makes fail, and the exception it raises. *)
Fixpoint first_failure (env : Orchestrator.environment) (pos n : nat)
    : option (nat * error) :=
  match n with
  | 0 => None
  | S n' =>
      match env pos with
      | Some e => Some (pos, e)
      | None => first_failure env (S pos) n'
      end
  end.

(** An icf workbook of one data row, and a conversion of a frame to
    texts that keeps an empty cell missing. *)
Definition demo_icf_row : list Normalizer.cell :=
  Normalizer.CText "2024-01-01" :: Normalizer.CEmpty
    :: replicate 23 (Normalizer.CText "101.5").

Definition demo_icf_workbook : Normalizer.workbook :=
  [ ("Série Histórica", [map Normalizer.CText Config.icf_columns; demo_icf_row]) ].

Definition demo_astype_str (df : Normalizer.dataframe) : list (list (option string)) :=
  map (map (fun c => match c with
                     | Normalizer.CText s => Some s
                     | Normalizer.CDatetime _ => Some "2024-05-01 12:00:00.123456"
                     | _ => None
                     end)) (Normalizer.rows df).

End Props.

(* ===================================================================== *)
(** * Part II: properties                                                *)
(* ===================================================================== *)

Section SanitizeFacts.
Import Sanitize.

Lemma lower_char_word c :
  is_word_char c = true -> is_clean_char (Str.lower_char c) = true.
Proof.
  destruct c as [[] [] [] [] [] [] [] []]; vm_compute; congruence.
Qed.

Lemma clean_char_word c : is_clean_char c = true -> is_word_char c = true.
Proof.
  destruct c as [[] [] [] [] [] [] [] []]; vm_compute; congruence.
Qed.

Lemma clean_char_lower c : is_clean_char c = true -> Str.lower_char c = c.
Proof.
  destruct c as [[] [] [] [] [] [] [] []]; vm_compute; congruence.
Qed.

Lemma sanitize_run_clean s : forall b, is_clean (Str.lower (re_sub_run b s)) = true.
Proof.
  induction s as [|c s IH]; intros b; simpl; [reflexivity|].
  destruct (is_word_char c) eqn:Hc; simpl.
  - rewrite lower_char_word by assumption. apply IH.
  - destruct b; simpl; auto.
Qed.

Lemma re_sub_run_clean s : is_clean s = true -> re_sub_run false s = s.
Proof.
  induction s as [|c s IH]; simpl; [reflexivity|].
  intros [Hc Hs]%andb_prop.
  rewrite (clean_char_word _ Hc). f_equal. auto.
Qed.

Lemma lower_clean s : is_clean s = true -> Str.lower s = s.
Proof.
  induction s as [|c s IH]; simpl; [reflexivity|].
  intros [Hc Hs]%andb_prop.
  rewrite (clean_char_lower _ Hc). f_equal. auto.
Qed.

Lemma sanitize_clean col : is_clean (sanitize col) = true.
Proof. apply sanitize_run_clean. Qed.

(** C4: column-name sanitisation is idempotent,
    [sanitize (sanitize x) = sanitize x] for every string [x]. *)
Theorem sanitize_idempotent (x : string) :
  sanitize (sanitize x) = sanitize x.
Proof.
  pose proof (sanitize_clean x) as H.
  unfold sanitize at 1. unfold re_sub.
  rewrite re_sub_run_clean by exact H.
  apply lower_clean, H.
Qed.

End SanitizeFacts.

Section NormalizerFacts.
Import Normalizer.

Lemma set_item_rows df name value :
  length (rows (set_item df name value)) = length (rows df).
Proof.
  unfold set_item. destruct (has_column name (columns df)); simpl;
    by rewrite length_map.
Qed.

Lemma set_item_columns df name value :
  columns (set_item df name value) =
    if has_column name (columns df) then columns df else columns df ++ [name].
Proof. unfold set_item. by destruct (has_column name (columns df)). Qed.

(** What the normaliser does once the sheet is found and a header row is
    left after the skipped rows. *)
Lemma process_excel_file_header file table_id sheet_name cols num_rows utcnow
    sh header data :
  get_sheet file sheet_name = Some sh ->
  drop (skiprows_of table_id) sh = header :: data ->
  process_excel_file file table_id sheet_name cols num_rows utcnow =
    if Nat.eqb (length header) (length cols)
    then Ok (set_item (mk_dataframe (Sanitize.sanitize_column_names cols)
                                    (take num_rows data))
                      "load_timestamp" (CDatetime utcnow))
    else Err (ValueError "Length mismatch").
Proof.
  intros Hsh Hdrop. unfold process_excel_file, read_excel.
  rewrite Hsh, Hdrop. simpl. unfold set_columns. simpl.
  rewrite length_map. by destruct (Nat.eqb (length header) (length cols)).
Qed.

(** The table identifier influences the normaliser through [skiprows_of]
    only. *)
Lemma process_excel_file_table_id file t1 t2 sheet_name cols num_rows utcnow :
  skiprows_of t1 = skiprows_of t2 ->
  process_excel_file file t1 sheet_name cols num_rows utcnow =
  process_excel_file file t2 sheet_name cols num_rows utcnow.
Proof. intros H. unfold process_excel_file. by rewrite H. Qed.

Lemma normalizer_shape_aux file table_id sheet_name cols num_rows utcnow sh header data :
  get_sheet file sheet_name = Some sh ->
  drop (skiprows_of table_id) sh = header :: data ->
  length header = length cols ->
  exists df,
    process_excel_file file table_id sheet_name cols num_rows utcnow = Ok df /\
    length (rows df) = Nat.min (length data) num_rows.
Proof.
  intros Hsheet Hrows H.
  rewrite (process_excel_file_header _ _ _ _ _ _ _ _ _ Hsheet Hrows).
  apply Nat.eqb_eq in H. rewrite H. eexists. split; [reflexivity|].
  rewrite set_item_rows. simpl. rewrite length_take. lia.
Qed.

(** *** The skipped row for the descriptors of a run *)

Lemma lower_app a b : Str.lower (a ++ b) = (Str.lower a ++ Str.lower b)%string.
Proof. induction a as [|c a IH]; simpl; [done|]. by rewrite IH. Qed.

Lemma contains_app_r sub a b :
  Str.contains sub b = true -> Str.contains sub (a ++ b) = true.
Proof.
  intros Hb. induction a as [|c a IH]; simpl; [done|].
  rewrite IH. apply orb_true_r.
Qed.

Lemma hex_is_not_i c : Config.is_hex c = true -> Ascii.eqb "i" (Str.lower_char c) = false.
Proof. destruct c as [[] [] [] [] [] [] [] []]; vm_compute; congruence. Qed.

Lemma hex_then_icf_has_no_icc u :
  Config.all_hex u = true ->
  Str.contains "icc" (Str.lower u ++ ".icf_raw") = false.
Proof.
  induction u as [|c u IH]; [reflexivity|].
  cbn [Config.all_hex]. intros [Hc Hu]%andb_prop.
  change (Str.contains "icc" (Str.lower (String c u) ++ ".icf_raw"))
    with (Ascii.eqb "i" (Str.lower_char c)
            && Str.startswith "cc" (Str.lower u ++ ".icf_raw")
          || Str.contains "icc" (Str.lower u ++ ".icf_raw")).
  rewrite (hex_is_not_i c Hc). by apply IH.
Qed.

(** X22: for every run identifier made of hexadecimal digits, the raw table
    identifiers [main] builds make the normaliser skip one leading row of
    the icc sheet and none of the icf sheet. *)
Lemma skiprows_of_run_descriptors dataset_uuid :
  Config.all_hex dataset_uuid = true ->
  skiprows_of (Config.raw_table (Config.icc_index dataset_uuid)) = 1 /\
  skiprows_of (Config.raw_table (Config.icf_index dataset_uuid)) = 0.
Proof.
  intros Hu. unfold skiprows_of. split.
  - replace (Str.contains "icc" (Str.lower (Config.raw_table (Config.icc_index dataset_uuid))))
      with true; [reflexivity|]. symmetry.
    unfold Config.icc_index, Config.raw_table, Config.raw_dataset_id.
    rewrite lower_app. apply contains_app_r. reflexivity.
  - replace (Str.contains "icc" (Str.lower (Config.raw_table (Config.icf_index dataset_uuid))))
      with false; [reflexivity|]. symmetry.
    unfold Config.icf_index, Config.raw_table, Config.raw_dataset_id.
    rewrite !lower_app.
    pose proof (hex_then_icf_has_no_icc dataset_uuid Hu) as Hrest.
    cbn -[Str.contains]. simpl. exact Hrest.
Qed.

End NormalizerFacts.

(** ** The normaliser: skipped rows, shape checks, row count *)

Section NormalizerClaims.
Import Normalizer.

(** C3, as the claim states it, fails: the two index descriptors of [main]
    carry no skip setting at all, and with every other argument equal the
    normaliser skips one more row when the table identifier names icc than
    when it names icf. *)
Lemma skip_depends_on_table_id :
  skiprows_of (Config.raw_table (Config.icc_index "a1b2c3")) = 1 /\
  skiprows_of (Config.raw_table (Config.icf_index "a1b2c3")) = 0 /\
  nrows (process_excel_file demo_workbook (Config.raw_table (Config.icc_index "a1b2c3"))
           "SÉRIE" ["mes"; "icc"] 368 0) = Some 2 /\
  nrows (process_excel_file demo_workbook (Config.raw_table (Config.icf_index "a1b2c3"))
           "SÉRIE" ["mes"; "icc"] 368 0) = Some 3.
Proof. vm_compute. repeat split; reflexivity. Qed.

(** C3 (amended): the number of leading rows the normaliser skips is decided
    by the table identifier it is given: one row when the lower-cased
    identifier contains [icc], none otherwise.  Two calls whose table
    identifiers agree on that test skip the same number of rows and, all
    other arguments being equal, return the same result. *)
Theorem skip_decided_by_table_id (t1 t2 : string)
    (Hsame : Str.contains "icc" (Str.lower t1) = Str.contains "icc" (Str.lower t2)) :
  (skiprows_of t1 = 1 <-> Str.contains "icc" (Str.lower t1) = true) /\
  (skiprows_of t1 = 0 <-> Str.contains "icc" (Str.lower t1) = false) /\
  skiprows_of t1 = skiprows_of t2 /\
  forall file sheet_name cols num_rows utcnow,
    process_excel_file file t1 sheet_name cols num_rows utcnow =
    process_excel_file file t2 sheet_name cols num_rows utcnow.
Proof.
  assert (Hskip : skiprows_of t1 = skiprows_of t2).
  { unfold skiprows_of. by rewrite Hsame. }
  repeat split; try done.
  - unfold skiprows_of. by destruct (Str.contains _ _).
  - unfold skiprows_of. by destruct (Str.contains _ _).
  - unfold skiprows_of. by destruct (Str.contains _ _).
  - unfold skiprows_of. by destruct (Str.contains _ _).
  - intros. by apply process_excel_file_table_id.
Qed.

Lemma skip_decided_by_table_id_witness :
  skiprows_of "proj.ds.ICC_raw" = skiprows_of "proj.ds.icc_2024" /\
  process_excel_file demo_workbook "proj.ds.ICC_raw" "SÉRIE" ["mes"; "icc"] 368 0 =
  process_excel_file demo_workbook "proj.ds.icc_2024" "SÉRIE" ["mes"; "icc"] 368 0.
Proof.
  destruct (skip_decided_by_table_id "proj.ds.ICC_raw" "proj.ds.icc_2024")
    as (_ & _ & Hs & Hp); [reflexivity|].
  split; [exact Hs | apply Hp].
Defined.

(** C8, as the claim states it, fails: a sheet with a header row and three
    data rows and a matching column list gives two rows, not three, when the
    expected row count is two; and also when the table identifier names icc,
    because the header row itself is then skipped. *)
Lemma normalizer_not_exactly_n_rows :
  length demo_header = length ["mes"; "icf"] /\
  nrows (process_excel_file demo_workbook "proj.ds.icf_raw" "SÉRIE" ["mes"; "icf"] 2 0)
    = Some 2 /\
  nrows (process_excel_file demo_workbook "proj.ds.icc_raw" "SÉRIE" ["mes"; "icc"] 368 0)
    = Some 2.
Proof. vm_compute. repeat split; reflexivity. Qed.

(** C8 (amended): let the sheet, after the rows skipped for the table
    identifier, consist of a header row and N data rows, and let K be the
    length of the target column list.  The normaliser fails with the
    length-mismatch [ValueError] when the header has not K cells; otherwise
    it returns a frame of exactly min(N, num_rows) rows whose columns are
    the sanitised target names, followed by [load_timestamp] unless one of
    the sanitised names already is [load_timestamp]. *)
Theorem normalizer_shape file table_id sheet_name cols num_rows utcnow sh header data
    (Hsheet : get_sheet file sheet_name = Some sh)
    (Hrows : drop (skiprows_of table_id) sh = header :: data) :
  (length header <> length cols ->
     process_excel_file file table_id sheet_name cols num_rows utcnow
       = Err (ValueError "Length mismatch")) /\
  (length header = length cols ->
     exists df,
       process_excel_file file table_id sheet_name cols num_rows utcnow = Ok df /\
       length (rows df) = Nat.min (length data) num_rows /\
       columns df =
         let names := map Sanitize.sanitize cols in
         if has_column "load_timestamp" names then names
         else names ++ ["load_timestamp"]).
Proof.
  rewrite (process_excel_file_header _ _ _ _ _ _ _ _ _ Hsheet Hrows).
  split; intros H.
  - apply Nat.eqb_neq in H. by rewrite H.
  - apply Nat.eqb_eq in H. rewrite H. eexists. split; [reflexivity|].
    split.
    + rewrite set_item_rows. simpl. rewrite length_take. lia.
    + by rewrite set_item_columns.
Qed.

Lemma normalizer_shape_witness :
  exists df,
    process_excel_file demo_workbook "proj.ds.icf_raw" "SÉRIE" ["Mês"; "ICF (total)"] 2 7
      = Ok df /\
    length (rows df) = 2 /\
    columns df = ["m_s"; "icf_total_"; "load_timestamp"].
Proof.
  destruct (normalizer_shape demo_workbook "proj.ds.icf_raw" "SÉRIE"
              ["Mês"; "ICF (total)"] 2 7 demo_sheet demo_header (tail demo_sheet)
              eq_refl eq_refl) as [_ H].
  destruct (H eq_refl) as (df & Hdf & Hn & Hc).
  exists df. split; [exact Hdf|]. split; [exact Hn|]. exact Hc.
Defined.

(** C10: the expected row count is only an upper bound.  When the sheet
    holds fewer data rows than the descriptor expects (and the header has
    the expected number of columns), the normaliser returns all of them and
    raises nothing; whether it succeeds never depends on the expected
    count. *)
Theorem row_count_is_upper_bound file table_id sheet_name cols num_rows utcnow
    sh header data
    (Hsheet : get_sheet file sheet_name = Some sh)
    (Hrows : drop (skiprows_of table_id) sh = header :: data)
    (Hcols : length header = length cols)
    (Hfewer : length data < num_rows) :
  (exists df,
     process_excel_file file table_id sheet_name cols num_rows utcnow = Ok df /\
     length (rows df) = length data) /\
  (forall n,
     is_ok (process_excel_file file table_id sheet_name cols n utcnow) =
     is_ok (process_excel_file file table_id sheet_name cols num_rows utcnow)).
Proof.
  split.
  - destruct (normalizer_shape_aux file table_id sheet_name cols num_rows utcnow
                sh header data Hsheet Hrows Hcols) as (df & Hdf & Hn).
    exists df. split; [exact Hdf|]. lia.
  - intros n.
    rewrite !(process_excel_file_header _ _ _ _ _ _ _ _ _ Hsheet Hrows).
    by destruct (Nat.eqb (length header) (length cols)).
Qed.

Lemma row_count_is_upper_bound_witness :
  exists df,
    process_excel_file demo_workbook "proj.ds.icf_raw" "SÉRIE" ["mes"; "icf"] 181 0 = Ok df /\
    length (rows df) = 3.
Proof.
  refine (proj1 (row_count_is_upper_bound demo_workbook "proj.ds.icf_raw" "SÉRIE"
                   ["mes"; "icf"] 181 0 demo_sheet demo_header (tail demo_sheet)
                   eq_refl eq_refl eq_refl _)).
  simpl. lia.
Defined.

End NormalizerClaims.

(** ** The download watcher *)

Section WatcherFacts.
Import Watcher.
Variable w : world.
Variable folder : string.
Variable timeout : float.

Let files_before : gset string := list_to_set (listing_before w).

Lemma find_new_file_some i file :
  List.find (Str.endswith ".xlsx") (elements (new_files w files_before i)) = Some file ->
  downloaded w i file.
Proof.
  intros [Hin Hx]%List.find_some.
  apply list_elem_of_In, elem_of_elements in Hin.
  unfold new_files, files_before in Hin.
  apply elem_of_difference in Hin as [H1 H2].
  rewrite elem_of_list_to_set in H1. rewrite elem_of_list_to_set in H2.
  by repeat split.
Qed.


(** Every path the loop returns names a downloaded file. *)
Lemma poll_sound fuel : forall i p,
  poll w folder timeout files_before fuel i = Some (Ok p) ->
  exists j file, i <= j /\ downloaded w j file /\ p = path_join folder file.
Proof.
  induction fuel as [|fuel IH]; intros i p; simpl; [discriminate|].
  destruct (within_timeout w timeout i); [|discriminate].
  destruct (List.find _ _) as [file|] eqn:Hfind.
  - intros [= <-]. exists i, file. split; [lia|].
    split; [by apply find_new_file_some | reflexivity].
  - intros H. destruct (IH _ _ H) as (j & file & Hj & Hd & Hp).
    exists j, file. split; [lia | done].
Qed.



End WatcherFacts.

Section WatcherClaims.
Import Watcher.



Example watcher_demo_run :
  wait_for_file_download demo_world "/downloads" 60 5 = Some (Ok "/downloads/icc.xlsx").
Proof. vm_compute. reflexivity. Qed.

Example watcher_demo_timeout :
  wait_for_file_download demo_world "/downloads" 1 5
    = Some (Err (TimeoutError "Timeout waiting for file download.")).
Proof. vm_compute. reflexivity. Qed.

End WatcherClaims.

(** ** The layer provisioner *)

Section ProvisionerFacts.
Import Provisioner.

Lemma create_trusted_dataset_unfold dataset_name w :
  create_trusted_dataset dataset_name w =
  create_bigquery_dataset (Config.PROJECT_ID ++ "." ++ dataset_name)%string w.
Proof. reflexivity. Qed.

(** One call: what can happen, by the next two API outcomes and the
    presence of the dataset. *)
Lemma create_bigquery_dataset_cases id w r w' :
  create_bigquery_dataset id w = (r, w') ->
  (* found: nothing changes *)
  (r = Ok () /\ is_Some (datasets w !! id) /\
     datasets w' = datasets w /\ created w' = created w /\
     faults w' = tail (faults w)) \/
  (* absent and created *)
  (r = Ok () /\ datasets w !! id = None /\
     datasets w' = <[id := "US"]> (datasets w) /\ created w' = created w ++ [id] /\
     faults w' = tail (tail (faults w))) \/
  (* an API failure: nothing is created *)
  (exists code, r = Err (ApiError code) /\ Some code ∈ faults w /\
     datasets w' = datasets w /\ created w' = created w /\
     exists n, faults w' = drop n (faults w)).
Proof.
  unfold create_bigquery_dataset, get_dataset, create_dataset, next_fault.
  destruct w as [ds cr fs]; simpl.
  destruct fs as [|[c1|] fs]; simpl.
  - destruct (ds !! id) eqn:Hid; simpl; rewrite ?Hid; intros [= <- <-]; simpl.
    + left. eauto.
    + right; left. eauto.
  - intros [= <- <-]; simpl. right; right. exists c1.
    repeat split; [set_solver|]. by exists 1.
  - destruct (ds !! id) eqn:Hid; simpl.
    + intros [= <- <-]; simpl. left. eauto.
    + destruct fs as [|[c2|] fs]; simpl; rewrite ?Hid; intros [= <- <-]; simpl.
      * right; left. eauto.
      * right; right. exists c2. repeat split; [set_solver|]. by exists 2.
      * right; left. eauto.
Qed.

End ProvisionerFacts.

Section ProvisionerClaims.
Import Provisioner.

Lemma create_bigquery_dataset_idempotent id :
  idempotent_provision (create_bigquery_dataset id) id.
Proof.
  intros w r1 w1 r2 w2 H1 H2.
  pose proof (create_bigquery_dataset_cases _ _ _ _ H1) as C1.
  pose proof (create_bigquery_dataset_cases _ _ _ _ H2) as C2.
  assert (Hdrop : forall n code l, Some code ∈ drop n l -> Some code ∈ (l : list (option nat))).
  { intros n code l Hin. rewrite <- (take_drop n l). apply elem_of_app. by right. }
  clear H1 H2.
  destruct C1 as [(Hr1 & Hin1 & Hd1 & Hc1 & Hf1)
                 |[(Hr1 & Hno1 & Hd1 & Hc1 & Hf1)
                  |(c1 & Hr1 & Hc1in & Hd1 & Hc1 & n1 & Hf1)]];
    destruct C2 as [(Hr2 & Hin2 & Hd2 & Hc2 & Hf2)
                   |[(Hr2 & Hno2 & Hd2 & Hc2 & Hf2)
                    |(c2 & Hr2 & Hc2in & Hd2 & Hc2 & n2 & Hf2)]];
    subst r1 r2;
    try (rewrite Hd1, lookup_insert_eq in Hno2; discriminate);
    try (rewrite Hd1 in Hno2; rewrite Hno2 in Hin1; by destruct Hin1).
  all: repeat split; try done; try congruence.
  all: try (left; congruence); try (right; congruence).
  all: try (intros e [= <-]; eauto; fail).
  all: try (exfalso; match goal with H : faults _ = [] |- _ => rewrite H in * end;
            simpl in *; rewrite ?drop_nil in *;
            repeat match goal with H : faults _ = [] |- _ => rewrite H in * end;
            set_solver).
  all: match goal with H : faults _ = [] |- _ => rewrite H in * end;
       destruct w1, w2; simpl in *; subst; reflexivity.
Qed.

(** C7: provisioning a dataset is idempotent create-if-absent.  For
    [create_bigquery_dataset] and for [create_trusted_dataset], and every
    fully-qualified dataset identifier, two calls in succession for the same
    identifier create the dataset at most once; a second call after a
    successful first one leaves the warehouse as it is; a call fails only
    when an API request fails for a cause other than the dataset existing;
    and when no request fails, both calls succeed. *)
Theorem ensure_dataset_idempotent (name : string) :
  (qualified name = true ->
   idempotent_provision (create_bigquery_dataset name) name) /\
  (qualified (Config.PROJECT_ID ++ "." ++ name)%string = true ->
   idempotent_provision (create_trusted_dataset name)
                        (Config.PROJECT_ID ++ "." ++ name)%string).
Proof.
  split; intros _.
  - apply create_bigquery_dataset_idempotent.
  - intros w r1 w1 r2 w2. rewrite !create_trusted_dataset_unfold.
    apply create_bigquery_dataset_idempotent.
Qed.

Lemma ensure_dataset_idempotent_witness :
  let id := "economic_indices_trusted_a1b2c3" in
  let w1 := snd (create_trusted_dataset id empty_warehouse) in
  let w2 := snd (create_trusted_dataset id w1) in
  qualified (Config.PROJECT_ID ++ "." ++ id)%string = true /\
  fst (create_trusted_dataset id empty_warehouse) = Ok () /\
  fst (create_trusted_dataset id w1) = Ok () /\
  w2 = w1.
Proof.
  intros id w1 w2. split; [reflexivity|].
  exact (proj2 (proj2 (proj2 (proj2
           (proj2 (ensure_dataset_idempotent id) eq_refl empty_warehouse _ w1 _ w2
                  (surjective_pairing _) (surjective_pairing _)))))
           eq_refl).
Defined.

Example provision_twice_creates_once :
  let id := "ps-eng-dados-ds3x-448302.economic_indices_raw_a1b2c3" in
  let w1 := snd (create_bigquery_dataset id empty_warehouse) in
  let w2 := snd (create_bigquery_dataset id w1) in
  created w1 = [id] /\ created w2 = [id].
Proof. vm_compute. split; reflexivity. Qed.

(** A failed request surfaces as it is, and the retry then creates. *)
Example provision_after_api_failure :
  let id := "ps-eng-dados-ds3x-448302.economic_indices_raw_a1b2c3" in
  let w := mk_warehouse ∅ [] [None; Some 503] in
  let '(r1, w1) := create_bigquery_dataset id w in
  let '(r2, w2) := create_bigquery_dataset id w1 in
  r1 = Err (ApiError 503) /\ created w1 = [] /\ r2 = Ok () /\ created w2 = [id].
Proof. vm_compute. repeat split; reflexivity. Qed.

End ProvisionerClaims.

(** ** The error monad *)

Section ResFacts.
Context {A B : Type} (f : A -> res B).

Lemma res_map_Ok l out :
  res_map f l = Ok out -> Forall2 (fun a b => f a = Ok b) l out.
Proof.
  revert out. induction l as [|a l IH]; simpl; intros out.
  - intros [= <-]. constructor.
  - destruct (f a) as [b|e] eqn:Hfa; simpl; [|discriminate].
    destruct (res_map f l) as [bs|e]; simpl; [|discriminate].
    intros [= <-]. constructor; auto.
Qed.

Lemma res_map_Forall2 l out :
  Forall2 (fun a b => f a = Ok b) l out -> res_map f l = Ok out.
Proof.
  induction 1 as [|a b l out Hab _ IH]; simpl; [reflexivity|].
  rewrite Hab. simpl. rewrite IH. reflexivity.
Qed.

Lemma res_map_is_ok l :
  is_ok (res_map f l) = true <-> forall a, a ∈ l -> is_ok (f a) = true.
Proof.
  induction l as [|a l IH]; simpl.
  - split; [intros _ a Ha; inversion Ha | reflexivity].
  - destruct (f a) as [b|e] eqn:Hfa; simpl.
    + destruct (res_map f l) as [bs|e]; simpl.
      * split; [|reflexivity]. intros _ a' [->|Ha]%elem_of_cons.
        -- by rewrite Hfa.
        -- by apply IH.
      * split; [discriminate|]. intros H. apply IH. intros a' Ha.
        apply H. by right.
    + split; [discriminate|]. intros H.
      specialize (H a (list_elem_of_here _ _)). by rewrite Hfa in H.
Qed.

Lemma res_map_length l out : res_map f l = Ok out -> length out = length l.
Proof. intros H%res_map_Ok. symmetry. by eapply Forall2_length. Qed.

End ResFacts.

Lemma is_ok_false {A : Type} (m : res A) : is_ok m <> true -> is_ok m = false.
Proof. by destruct m. Qed.

(** ** The trusted transformers *)

Section TrustedFacts.
Import Sql Trusted.

(** The default-on-invalid item, by the outcome of the cast. *)
Lemma eval_rule_or_zero v :
  eval_rule CastFloat64OrZero v =
    match cast_float64 v with
    | Err e => Err e
    | Ok None => Ok (VFloat64 (Some zero))
    | Ok (Some x) => Ok (VFloat64 (Some (if is_nan x then zero else x)))
    end.
Proof.
  unfold eval_rule. destruct (cast_float64 v) as [[x|]|e]; simpl; try done.
  by destruct (is_nan x).
Qed.

Lemma cast_float64_Some s :
  cast_float64 (Some s) =
    match cast_string_float64 s with Ok x => Ok (Some x) | Err e => Err e end.
Proof. unfold cast_float64. by destruct (cast_string_float64 s). Qed.

Lemma select_from_is_ok items raw :
  is_ok (select_from items raw) = true <->
  forall r item, r ∈ raw -> item ∈ items -> is_ok (select_item r item) = true.
Proof.
  unfold select_from. split.
  - intros H r item Hr.
    pose proof (proj1 (res_map_is_ok _ _) H r Hr) as Hrow.
    apply (proj1 (res_map_is_ok _ _) Hrow).
  - intros H. apply res_map_is_ok. intros r Hr.
    apply res_map_is_ok. intros item. by apply H.
Qed.

(** The items of [icc_items] with the default-on-invalid policy. *)
Lemma icc_default_on_invalid c :
  default_on_invalid icc_items c <->
  c ∈ [ "icc_homens"; "icc_mulheres"; "icc_ate_35_anos"; "icc_mais_de_35_anos";
        "icea_homens"; "icea_mulheres"; "icea_ate_35_anos"; "icea_mais_de_35_anos";
        "iec_homens"; "iec_mulheres"; "iec_ate_35_anos"; "iec_mais_de_35_anos" ].
Proof.
  unfold default_on_invalid, icc_items. rewrite !elem_of_cons, !elem_of_nil.
  split; intros H; repeat (destruct H as [H|H]; [try (inversion H; subst; clear H)|]);
    try discriminate; try (destruct H); subst; tauto.
Qed.

(** No item of [icf_items] has it. *)
Lemma icf_no_default_on_invalid c : ~ default_on_invalid icf_items c.
Proof.
  unfold default_on_invalid, icf_items. rewrite !elem_of_cons, !elem_of_nil.
  intros H; repeat (destruct H as [H|H]; [discriminate|]). destruct H.
Qed.

End TrustedFacts.

Section TrustedClaims.
Import Sql Trusted.

(** C1, as the claim states it, fails for a non-numeric value: the cast of
    such a value is an error of the query, so the transform fails instead
    of writing a zero. *)
Lemma non_numeric_value_fails_icc_transform :
  default_on_invalid icc_items "icc_homens" /\
  cast_string_float64 "n/d" = Err (QueryError (BadDouble "n/d")) /\
  transform_icc_data [demo_icc_raw_row "2024-01-01" "n/d"]
    = Err (QueryError (BadDouble "n/d")).
Proof.
  split; [apply icc_default_on_invalid; set_solver|].
  split; vm_compute; reflexivity.
Qed.

(** C1 (amended): for every column [c] to which the icc rule set assigns
    the default-on-invalid policy, the trusted transform maps a source
    value that is NULL or that casts to the not-a-number sentinel to zero,
    and keeps every other value the cast accepts; such values never make
    the transform fail, which succeeds exactly when every item of every row
    evaluates.  A source value the cast rejects (a non-numeric text) makes
    the whole transform fail. *)
Theorem trusted_default_on_invalid (raw : raw_table) (c : string)
    (Hc : default_on_invalid icc_items c) :
  (forall r v,
     raw_column r c = Some v ->
     v = None \/ (exists s, v = Some s /\ cast_string_float64 s = Ok nan) ->
     select_item r (c, CastFloat64OrZero) = Ok (c, VFloat64 (Some zero))) /\
  (forall r s x,
     raw_column r c = Some (Some s) ->
     cast_string_float64 s = Ok x -> is_nan x = false ->
     select_item r (c, CastFloat64OrZero) = Ok (c, VFloat64 (Some x))) /\
  (forall out,
     transform_icc_data raw = Ok out ->
     Forall2 (fun r o =>
                Forall2 (fun item cell => select_item r item = Ok cell) icc_items o)
             raw out) /\
  (is_ok (transform_icc_data raw) = true <->
   forall r item, r ∈ raw -> item ∈ icc_items -> is_ok (select_item r item) = true) /\
  (forall r s e,
     r ∈ raw -> raw_column r c = Some (Some s) ->
     cast_string_float64 s = Err e ->
     is_ok (transform_icc_data raw) = false).
Proof.
  split; [|split; [|split; [|split]]].
  - intros r v Hv Hinv. unfold select_item. cbn [fst snd]. rewrite Hv.
    rewrite eval_rule_or_zero.
    destruct Hinv as [->|(s & -> & Hs)]; [done|].
    rewrite cast_float64_Some, Hs. reflexivity.
  - intros r s x Hv Hs Hx. unfold select_item. cbn [fst snd]. rewrite Hv.
    rewrite eval_rule_or_zero, cast_float64_Some, Hs, Hx. reflexivity.
  - intros out Hout. unfold transform_icc_data, select_from in Hout.
    apply res_map_Ok in Hout.
    eapply Forall2_impl; [exact Hout|]. intros r o Hro. by apply res_map_Ok.
  - apply select_from_is_ok.
  - intros r s e Hr Hv Hs. apply is_ok_false. intros Hok.
    pose proof (proj1 (select_from_is_ok icc_items raw) Hok r _ Hr Hc) as Hitem.
    unfold select_item in Hitem. cbn [fst snd] in Hitem. rewrite Hv in Hitem.
    rewrite eval_rule_or_zero, cast_float64_Some, Hs in Hitem. discriminate.
Qed.

Lemma trusted_default_on_invalid_witness :
  select_item (demo_icc_raw_row "2024-01-01" "nan") ("icc_homens", CastFloat64OrZero)
    = Ok ("icc_homens", VFloat64 (Some zero)) /\
  is_ok (transform_icc_data [demo_icc_raw_row "2024-01-01" "n/d"]) = false.
Proof.
  assert (Hc : default_on_invalid icc_items "icc_homens").
  { apply icc_default_on_invalid. set_solver. }
  destruct (trusted_default_on_invalid [demo_icc_raw_row "2024-01-01" "n/d"]
              "icc_homens" Hc) as (Hzero & _ & _ & _ & Hfail).
  split.
  - apply (Hzero _ (Some "nan")); [reflexivity|].
    right. exists "nan". split; reflexivity.
  - apply (Hfail (demo_icc_raw_row "2024-01-01" "n/d") "n/d" (QueryError (BadDouble "n/d"))).
    + apply list_elem_of_here.
    + reflexivity.
    + reflexivity.
Defined.

(** The empty cells of a sheet reach the raw table as the text [nan]: the
    transform succeeds and stores a zero. *)
Example icc_transform_nan_to_zero :
  (fun t => flat_map (fun r => option_list (column r "icc_homens")) t)
    <$> (match transform_icc_data [demo_icc_raw_row "2024-01-01" "nan";
                                   demo_icc_raw_row "2024-02-01" "98.25"] with
         | Ok t => Some t | Err _ => None end)
  = Some [VFloat64 (Some zero); VFloat64 (Some 98.25%float)].
Proof. vm_compute. reflexivity. Qed.

End TrustedClaims.

(** ** The refined transformer *)

Section RefinedFacts.
Import Sql Refined.

Lemma res_map_elem_l {A B : Type} (f : A -> res B) l out a :
  res_map f l = Ok out -> a ∈ l -> exists b, b ∈ out /\ f a = Ok b.
Proof.
  intros H%res_map_Ok. induction H as [|a' b l out Hab _ IH].
  - intros Ha. inversion Ha.
  - intros [->|Ha]%elem_of_cons.
    + exists b. split; [left | done].
    + destruct (IH Ha) as (b' & Hb' & Hf). exists b'. split; [by right | done].
Qed.

Lemma res_map_elem_r {A B : Type} (f : A -> res B) l out b :
  res_map f l = Ok out -> b ∈ out -> exists a, a ∈ l /\ f a = Ok b.
Proof.
  intros H%res_map_Ok. induction H as [|a b' l out Hab _ IH].
  - intros Hb. inversion Hb.
  - intros [->|Hb]%elem_of_cons.
    + exists a. split; [left | done].
    + destruct (IH Hb) as (a' & Ha' & Hf). exists a'. split; [by right | done].
Qed.

(** *** The window function *)

Lemma lag_length rows : forall before, length (lag before rows) = length rows.
Proof. induction rows as [|[d x] rows IH]; intros before; simpl; auto. Qed.

(** The k-th row of the window carries the value of the row before it. *)
Lemma lag_lookup rows : forall before k d x,
  rows !! k = Some (d, x) ->
  lag before rows !! k =
    Some (mk_series_row (FORMAT_DATE_Y_m d) x
            (match k with
             | O => before
             | S k' => rows !! k' ≫= snd
             end)).
Proof.
  induction rows as [|[d0 x0] rows IH]; intros before k d x; [done|].
  destruct k as [|k]; simpl.
  - by intros [= -> ->].
  - intros Hk. rewrite (IH x0 k d x Hk). destruct k; [done|]. reflexivity.
Qed.

Lemma lag_ano_mes rows : forall before,
  ano_mes <$> lag before rows = (fun r => FORMAT_DATE_Y_m r.1) <$> rows.
Proof.
  induction rows as [|[d x] rows IH]; intros before; simpl; [done|].
  f_equal. apply IH.
Qed.

Lemma series_data_periods t p :
  (exists i, i ∈ series_data t /\ ano_mes i = Some p) <-> p ∈ periods t.
Proof.
  unfold series_data, periods. rewrite list_elem_of_omap. split.
  - intros (i & Hi & Hp).
    assert (Hin : Some p ∈ ano_mes <$> lag None (merge_sort by_mes t)).
    { rewrite <- Hp. by apply list_elem_of_fmap_2. }
    rewrite lag_ano_mes in Hin. apply list_elem_of_fmap in Hin as (r & Hr & Hrin).
    exists r. split; [|done]. by rewrite <- (merge_sort_Permutation by_mes t).
  - intros (r & Hr & Hp).
    assert (Hin : Some p ∈ ano_mes <$> lag None (merge_sort by_mes t)).
    { rewrite lag_ano_mes, <- Hp.
      apply (list_elem_of_fmap_2 (fun r : option date * option float => FORMAT_DATE_Y_m r.1)).
      by rewrite (merge_sort_Permutation by_mes t). }
    apply list_elem_of_fmap in Hin as (i & Hi & Hiin). by exists i.
Qed.

(** *** The join *)

Lemma same_key_spec i f :
  same_key i f = true <-> exists p, ano_mes i = Some p /\ ano_mes f = Some p.
Proof.
  unfold same_key. destruct (ano_mes i) as [a|], (ano_mes f) as [b|]; split;
    try discriminate; try (intros (p & ? & ?); discriminate).
  - intros ->%String.eqb_eq. by exists b.
  - intros (p & [= ->] & [= ->]). apply String.eqb_refl.
Qed.

Lemma elem_of_join icc_data icf_data i f :
  (i, f) ∈ join icc_data icf_data <->
  i ∈ icc_data /\ f ∈ icf_data /\ same_key i f = true.
Proof.
  unfold join. rewrite list_elem_of_bind. split.
  - intros (i' & Hif & Hi').
    apply list_elem_of_bind in Hif as (f' & Hif & Hf').
    apply list_elem_of_ret in Hif as [= -> ->].
    apply list_elem_of_filter in Hf' as [Hk Hf']. split; [done|]. split; [done|].
    by apply Is_true_true.
  - intros (Hi & Hf & Hk). exists i. split; [|done].
    apply list_elem_of_bind. exists f. split; [by apply list_elem_of_ret|].
    apply list_elem_of_filter. split; [by apply Is_true_true | done].
Qed.

(** *** The final order *)

#[global] Instance by_ano_mes_total : Total by_ano_mes.
Proof.
  intros a b. unfold by_ano_mes.
  destruct (String.leb_total (r_ano_mes a) (r_ano_mes b)) as [H|H];
    rewrite H; simpl; auto.
Qed.

Lemma date_leb_total a b : date_leb a b = true \/ date_leb b a = true.
Proof.
  unfold date_leb. destruct a as [y1 m1 d1], b as [y2 m2 d2]; simpl.
  destruct (Z.ltb_spec y1 y2), (Z.ltb_spec y2 y1), (Z.eqb_spec y1 y2), (Z.eqb_spec y2 y1),
    (Z.ltb_spec m1 m2), (Z.ltb_spec m2 m1), (Z.eqb_spec m1 m2), (Z.eqb_spec m2 m1),
    (Z.leb_spec d1 d2), (Z.leb_spec d2 d1); simpl; auto; lia.
Qed.

#[global] Instance by_mes_total : Total by_mes.
Proof.
  intros [[a|] x] [[b|] y]; unfold by_mes; simpl; auto.
  destruct (date_leb_total a b) as [H|H]; rewrite H; simpl; auto.
Qed.

(** The window is in the order of [mes]. *)
Lemma window_sorted t : Sorted by_mes (merge_sort by_mes t).
Proof. apply Sorted_merge_sort, _. Qed.

(** *** The rows of the refined table *)

Lemma joined_row_Ok now i f r :
  joined_row now (i, f) = Ok r ->
  r_ano_mes r = default EmptyString (ano_mes i) /\
  icc_indice r = indice i /\ variacao (indice i) (prev i) = Ok (icc_variacao r) /\
  icf_indice r = indice f /\ variacao (indice f) (prev f) = Ok (icf_variacao r) /\
  load_timestamp r = now.
Proof.
  unfold joined_row.
  destruct (variacao (indice i) (prev i)) as [vi|e]; simpl; [|discriminate].
  destruct (variacao (indice f) (prev f)) as [vf|e]; simpl; [|discriminate].
  intros [= <-]. simpl. by repeat split.
Qed.

Lemma joined_row_is_ok now i f :
  is_ok (joined_row now (i, f)) = true <->
  is_ok (variacao (indice i) (prev i)) = true /\
  is_ok (variacao (indice f) (prev f)) = true.
Proof.
  unfold joined_row.
  destruct (variacao (indice i) (prev i)) as [vi|e]; simpl;
    destruct (variacao (indice f) (prev f)) as [vf|e']; simpl; intuition discriminate.
Qed.

(** The rows of the result are the joined pairs, each with its two
    changes. *)
Lemma refined_query_rows icc icf now out :
  refined_query icc icf now = Ok out ->
  forall r, r ∈ out <->
    exists i f, (i, f) ∈ join (series_data icc) (series_data icf) /\
                joined_row now (i, f) = Ok r.
Proof.
  unfold refined_query.
  destruct (res_map (joined_row now) (join (series_data icc) (series_data icf)))
    as [rows|e] eqn:Hrows; simpl; [|discriminate].
  intros [= <-] r. rewrite (merge_sort_Permutation by_ano_mes rows). split.
  - intros Hr. destruct (res_map_elem_r _ _ _ _ Hrows Hr) as ([i f] & Hif & Hjr). eauto.
  - intros (i & f & Hif & Hjr).
    destruct (res_map_elem_l _ _ _ _ Hrows Hif) as (r' & Hr' & Hjr').
    pose proof (eq_trans (eq_sym Hjr) Hjr') as Heq. by injection Heq as <-.
Qed.

Lemma refined_query_row icc icf now out r :
  refined_query icc icf now = Ok out -> r ∈ out ->
  exists i f,
    i ∈ series_data icc /\ f ∈ series_data icf /\
    ano_mes i = Some (r_ano_mes r) /\ ano_mes f = Some (r_ano_mes r) /\
    icc_indice r = indice i /\ variacao (indice i) (prev i) = Ok (icc_variacao r) /\
    icf_indice r = indice f /\ variacao (indice f) (prev f) = Ok (icf_variacao r) /\
    load_timestamp r = now.
Proof.
  intros Hq Hr. apply (refined_query_rows _ _ _ _ Hq) in Hr as (i & f & Hif & Hjr).
  apply elem_of_join in Hif as (Hi & Hf & Hk).
  apply same_key_spec in Hk as (q & Hqi & Hqf).
  apply joined_row_Ok in Hjr as (Hp & H1 & H2 & H3 & H4 & H5).
  exists i, f. rewrite Hp, Hqi. simpl. by repeat split.
Qed.

Lemma refined_query_is_ok icc icf now :
  is_ok (refined_query icc icf now) = true <->
  forall i f, (i, f) ∈ join (series_data icc) (series_data icf) ->
    is_ok (variacao (indice i) (prev i)) = true /\
    is_ok (variacao (indice f) (prev f)) = true.
Proof.
  unfold refined_query.
  assert (Hmap : is_ok (res_map (joined_row now)
                   (join (series_data icc) (series_data icf))) = true <->
                 forall i f, (i, f) ∈ join (series_data icc) (series_data icf) ->
                   is_ok (variacao (indice i) (prev i)) = true /\
                   is_ok (variacao (indice f) (prev f)) = true).
  { rewrite res_map_is_ok. split.
    - intros H i f Hif. apply (proj1 (joined_row_is_ok now i f)). by apply H.
    - intros H [i f] Hif. apply (proj2 (joined_row_is_ok now i f)). by apply H. }
  by destruct (res_map (joined_row now) (join (series_data icc) (series_data icf))).
Qed.

End RefinedFacts.

Section RefinedTableFacts.
Import Sql Refined.

Lemma checked_Ok x y r v : checked x y r = Ok v -> v = r.
Proof. unfold checked. destruct (_ && _); [discriminate|]. by intros [= <-]. Qed.

Lemma checked_Err x y r e : checked x y r = Err e -> e = QueryError FloatOverflow.
Proof. unfold checked. destruct (_ && _); [|discriminate]. by intros [= <-]. Qed.

Lemma f64_sub_Ok x y v : f64_sub x y = Ok v -> v = (x - y)%float.
Proof. apply checked_Ok. Qed.

Lemma f64_mul_Ok x y v : f64_mul x y = Ok v -> v = (x * y)%float.
Proof. apply checked_Ok. Qed.

Lemma f64_div_Ok x y v : f64_div x y = Ok v -> v = (x / y)%float.
Proof. unfold f64_div. destruct (y =? zero)%float; [discriminate | apply checked_Ok]. Qed.

Lemma f64_div_Err x y e :
  (y =? zero)%float = false -> f64_div x y = Err e -> e = QueryError FloatOverflow.
Proof. unfold f64_div. intros ->. apply checked_Err. Qed.

(** The CASE expression, when it has a value, has the value of the
    specification's formula. *)
Lemma variacao_Ok c prev v : variacao c prev = Ok v -> v = expected_change c prev.
Proof.
  unfold variacao, expected_change. destruct prev as [p|]; [|by intros [= <-]].
  destruct (p =? zero)%float eqn:Hp; [by intros [= <-]|].
  destruct c as [c|]; [|by intros [= <-]].
  cbn [lift2 mbind res_bind].
  destruct (f64_sub c p) as [d|e] eqn:Hd; cbn [lift2 mbind res_bind]; [|discriminate].
  destruct (f64_div d p) as [q|e] eqn:Hq; cbn [lift2 mbind res_bind]; [|discriminate].
  destruct (f64_mul q hundred) as [m|e] eqn:Hm; cbn [lift2 mbind res_bind]; [|discriminate].
  intros [= <-].
  apply f64_sub_Ok in Hd as ->. apply f64_div_Ok in Hq as ->.
  by apply f64_mul_Ok in Hm as ->.
Qed.

(** It fails only by an overflow, and only with a prior value other than
    zero: never by a division by zero. *)
Lemma variacao_Err c prev e :
  variacao c prev = Err e ->
  e = QueryError FloatOverflow /\
  exists x p, c = Some x /\ prev = Some p /\ (p =? zero)%float = false.
Proof.
  unfold variacao. destruct prev as [p|]; [|discriminate].
  destruct (p =? zero)%float eqn:Hp; [discriminate|].
  destruct c as [c|]; [|discriminate].
  intros H. split; [|by exists c, p].
  revert H. cbn [lift2 mbind res_bind].
  destruct (f64_sub c p) as [d|e1] eqn:Hd; cbn [lift2 mbind res_bind];
    [|intros [= <-]; by eapply checked_Err].
  destruct (f64_div d p) as [q|e2] eqn:Hq; cbn [lift2 mbind res_bind];
    [|intros [= <-]; by eapply f64_div_Err].
  destruct (f64_mul q hundred) as [m|e3] eqn:Hm; cbn [lift2 mbind res_bind];
    [discriminate|intros [= <-]; by eapply checked_Err].
Qed.

(** The k-th row of the look-back data of a series. *)
Lemma series_data_lookup t k i :
  series_data t !! k = Some i <->
  exists d c,
    merge_sort by_mes t !! k = Some (d, c) /\
    i = mk_series_row (FORMAT_DATE_Y_m d) c (previous_value (merge_sort by_mes t) k).
Proof.
  unfold series_data. split.
  - intros Hi.
    assert (Hlt : k < length (merge_sort by_mes t)).
    { rewrite <- (lag_length _ None). by eapply lookup_lt_Some. }
    apply lookup_lt_is_Some_2 in Hlt as [[d c] Hk].
    exists d, c. split; [done|].
    rewrite (lag_lookup _ None k d c Hk) in Hi. by injection Hi as <-.
  - intros (d & c & Hk & ->). by rewrite (lag_lookup _ None k d c Hk).
Qed.

(** What the query reads of a trusted table: [mes] and the index column of
    every row, in the order of the table. *)
Lemma read_series_Ok index_column t s :
  read_series index_column t = Ok s ->
  Forall2 (fun row p => column row "mes" = Some (VDate p.1) /\
                        column row index_column = Some (VFloat64 p.2)) t s.
Proof.
  intros H. apply res_map_Ok in H.
  eapply Forall2_impl; [exact H|]. intros row [d x]. cbn [fst snd].
  destruct (column row "mes") as [[| d' | |]|]; try discriminate.
  destruct (column row index_column) as [[| | x' |]|]; try discriminate.
  by intros [= -> ->].
Qed.

Lemma read_series_periods index_column t s :
  read_series index_column t = Ok s -> periods s = table_periods t.
Proof.
  intros H%read_series_Ok. unfold periods, table_periods.
  induction H as [|row [d x] t s [Hmes _] _ IH]; [done|].
  cbn [omap list_omap fst]. rewrite Hmes, IH. done.
Qed.

Lemma transform_refined_data_Ok icc_trusted icf_trusted now out :
  transform_refined_data icc_trusted icf_trusted now = Ok out <->
  exists icc icf,
    read_series "icc" icc_trusted = Ok icc /\
    read_series "icf" icf_trusted = Ok icf /\
    refined_query icc icf now = Ok out.
Proof.
  unfold transform_refined_data. split.
  - destruct (read_series "icc" icc_trusted) as [icc|e]; simpl; [|discriminate].
    destruct (read_series "icf" icf_trusted) as [icf|e]; simpl; [|discriminate].
    intros Hq. by exists icc, icf.
  - intros (icc & icf & -> & -> & Hq). exact Hq.
Qed.



(** A period of one series that the other series has too is a row of the
    result, with the value and the change of that period. *)
Lemma refined_query_has_period icc icf now out i p :
  refined_query icc icf now = Ok out ->
  i ∈ series_data icc -> ano_mes i = Some p -> p ∈ periods icf ->
  exists r, r ∈ out /\ r_ano_mes r = p /\ icc_indice r = indice i /\
            icc_variacao r = expected_change (indice i) (prev i).
Proof.
  intros Hq Hi Hp (f & Hf & Hpf)%series_data_periods.
  assert (Hif : (i, f) ∈ join (series_data icc) (series_data icf)).
  { apply elem_of_join. split; [done|]. split; [done|]. apply same_key_spec. eauto. }
  assert (Hok : is_ok (joined_row now (i, f)) = true).
  { apply (proj2 (joined_row_is_ok now i f)).
    apply (proj1 (refined_query_is_ok icc icf now)); [by rewrite Hq | done]. }
  destruct (joined_row now (i, f)) as [r|e] eqn:Hjr; [|discriminate].
  exists r. split; [apply (refined_query_rows _ _ _ _ Hq); eauto|].
  apply joined_row_Ok in Hjr as (Hr & Hc & Hv & _).
  rewrite Hr, Hp. split; [done|]. split; [done|]. by apply variacao_Ok.
Qed.

Lemma refined_query_has_period_r icc icf now out f p :
  refined_query icc icf now = Ok out ->
  f ∈ series_data icf -> ano_mes f = Some p -> p ∈ periods icc ->
  exists r, r ∈ out /\ r_ano_mes r = p /\ icf_indice r = indice f /\
            icf_variacao r = expected_change (indice f) (prev f).
Proof.
  intros Hq Hf Hp (i & Hi & Hpi)%series_data_periods.
  assert (Hif : (i, f) ∈ join (series_data icc) (series_data icf)).
  { apply elem_of_join. split; [done|]. split; [done|]. apply same_key_spec. eauto. }
  assert (Hok : is_ok (joined_row now (i, f)) = true).
  { apply (proj2 (joined_row_is_ok now i f)).
    apply (proj1 (refined_query_is_ok icc icf now)); [by rewrite Hq | done]. }
  destruct (joined_row now (i, f)) as [r|e] eqn:Hjr; [|discriminate].
  exists r. split; [apply (refined_query_rows _ _ _ _ Hq); eauto|].
  apply joined_row_Ok in Hjr as (Hr & _ & _ & Hc & Hv & _).
  rewrite Hr, Hpi. split; [done|]. split; [done|]. by apply variacao_Ok.
Qed.

End RefinedTableFacts.

Section RefinedClaims.
Import Sql Refined.

(** C2: the percentage change of the refined table.  The look-back gives
    each period of a trusted table, in the order of [mes], the value of the
    period before it in that table, and none to the first one.  Whenever
    the transform produces the refined table, every period that both
    trusted tables have is a row of it, and the two changes of every row
    are those of its period: NULL without a prior value or with a prior
    value of zero (not zero, and not an error: the CASE expression never
    divides by zero and fails only when the arithmetic overflows), and
    [(c - p) / p * 100] in binary64 for a prior value p other than zero and
    a current value c.  For p = 50 and c = 75 it is 50.0. *)
Theorem percentage_change_by_lag (icc_trusted icf_trusted : table) (now : timestamp) :
  (* the formula *)
  ((forall c, expected_change c None = None) /\
   (forall c p, (p =? zero)%float = true -> expected_change c (Some p) = None) /\
   (forall c p, (p =? zero)%float = false ->
      expected_change (Some c) (Some p) = Some ((c - p) / p * 100)%float) /\
   expected_change (Some 75%float) (Some 50%float) = Some 50%float) /\
  (* the CASE expression of the query *)
  ((forall c, variacao c None = Ok None) /\
   (forall c p, (p =? zero)%float = true -> variacao c (Some p) = Ok None) /\
   (forall c prev v, variacao c prev = Ok v -> v = expected_change c prev) /\
   (forall c prev e, variacao c prev = Err e ->
      e = QueryError FloatOverflow /\
      exists x p, c = Some x /\ prev = Some p /\ (p =? zero)%float = false)) /\
  (* the refined table *)
  forall out, transform_refined_data icc_trusted icf_trusted now = Ok out ->
    exists icc icf,
      read_series "icc" icc_trusted = Ok icc /\
      read_series "icf" icf_trusted = Ok icf /\
      (forall k d c p,
         merge_sort by_mes icc !! k = Some (d, c) ->
         FORMAT_DATE_Y_m d = Some p -> p ∈ table_periods icf_trusted ->
         exists r, r ∈ out /\ r_ano_mes r = p /\ icc_indice r = c /\
           icc_variacao r = expected_change c (previous_value (merge_sort by_mes icc) k)) /\
      (forall k d c p,
         merge_sort by_mes icf !! k = Some (d, c) ->
         FORMAT_DATE_Y_m d = Some p -> p ∈ table_periods icc_trusted ->
         exists r, r ∈ out /\ r_ano_mes r = p /\ icf_indice r = c /\
           icf_variacao r = expected_change c (previous_value (merge_sort by_mes icf) k)) /\
      (forall r, r ∈ out ->
         (exists k d c,
            merge_sort by_mes icc !! k = Some (d, c) /\
            FORMAT_DATE_Y_m d = Some (r_ano_mes r) /\ icc_indice r = c /\
            icc_variacao r = expected_change c (previous_value (merge_sort by_mes icc) k)) /\
         (exists k d c,
            merge_sort by_mes icf !! k = Some (d, c) /\
            FORMAT_DATE_Y_m d = Some (r_ano_mes r) /\ icf_indice r = c /\
            icf_variacao r = expected_change c (previous_value (merge_sort by_mes icf) k))).
Proof.
  split; [|split].
  - repeat split.
    + intros c p Hp. unfold expected_change. by rewrite Hp.
    + intros c p Hp. unfold expected_change. by rewrite Hp.
  - repeat split.
    + intros c p Hp. unfold variacao. by rewrite Hp.
    + apply variacao_Ok.
    + by eapply variacao_Err.
    + by eapply variacao_Err.
  - intros out (icc & icf & Hicc & Hicf & Hq)%transform_refined_data_Ok.
    exists icc, icf. split; [done|]. split; [done|].
    rewrite <- (read_series_periods _ _ _ Hicc), <- (read_series_periods _ _ _ Hicf).
    split; [|split].
    + intros k d c p Hk Hd Hp.
      destruct (refined_query_has_period icc icf now out
                  (mk_series_row (FORMAT_DATE_Y_m d) c
                     (previous_value (merge_sort by_mes icc) k)) p Hq)
        as (r & Hr & Hrp & Hc & Hv); [|done|done|by exists r].
      eapply list_elem_of_lookup_2, series_data_lookup. eauto.
    + intros k d c p Hk Hd Hp.
      destruct (refined_query_has_period_r icc icf now out
                  (mk_series_row (FORMAT_DATE_Y_m d) c
                     (previous_value (merge_sort by_mes icf) k)) p Hq)
        as (r & Hr & Hrp & Hc & Hv); [|done|done|by exists r].
      eapply list_elem_of_lookup_2, series_data_lookup. eauto.
    + intros r Hr.
      destruct (refined_query_row _ _ _ _ _ Hq Hr)
        as (i & f & Hi & Hf & Hpi & Hpf & Hci & Hvi & Hcf & Hvf & _).
      apply list_elem_of_lookup in Hi as [ki Hi], Hf as [kf Hf].
      apply series_data_lookup in Hi as (di & ci & Hki & ->).
      apply series_data_lookup in Hf as (df & cf & Hkf & ->).
      cbn [ano_mes indice prev] in *.
      split.
      * exists ki, di, ci. repeat split; [done | done | done | by apply variacao_Ok].
      * exists kf, df, cf. repeat split; [done | done | done | by apply variacao_Ok].
Qed.

(** The icf table holds 50 for January and 75 for February: the February
    row of the refined table has the change 50.0. *)
Lemma percentage_change_by_lag_witness :
  exists out r,
    transform_refined_data demo_icc_trusted demo_icf_trusted demo_now = Ok out /\
    r ∈ out /\ r_ano_mes r = "2024-02" /\
    icf_indice r = Some 75%float /\ icf_variacao r = Some 50%float.
Proof.
  destruct (transform_refined_data demo_icc_trusted demo_icf_trusted demo_now)
    as [out|e] eqn:Hout; [|vm_compute in Hout; discriminate].
  destruct (proj2 (proj2 (percentage_change_by_lag demo_icc_trusted demo_icf_trusted
                            demo_now)) out Hout)
    as (icc & icf & Hicc & Hicf & _ & Hchange & _).
  change (read_series "icf" demo_icf_trusted) with (Ok demo_icf) in Hicf.
  injection Hicf as <-.
  destruct (Hchange 1 (Some (mk_date 2024 2 1)) (Some 75%float) "2024-02")
    as (r & Hr & Hp & Hc & Hv); [reflexivity | reflexivity | |].
  - unfold table_periods. apply list_elem_of_omap.
    exists [("mes", VDate (Some (mk_date 2024 2 1))); ("icc", VFloat64 (Some 125%float));
            ("load_timestamp", VTimestamp (Some demo_now))].
    split; [apply list_elem_of_here | reflexivity].
  - exists out, r. split; [reflexivity|]. by repeat split.
Defined.

End RefinedClaims.

Section RefinedJoinClaims.
Import Sql Refined.



(** A period missing from one table does not disturb the look-back of the
    other: with February missing from icf, the March row takes its icc
    change from February and its icf change from January. *)
Example lookback_before_join :
  refined_query demo_icc
    [ (Some (mk_date 2024 1 1), Some 50%float);
      (Some (mk_date 2024 3 1), Some 75%float) ] demo_now
  = Ok [ mk_refined_row "2024-01" (Some 100%float) None (Some 50%float) None demo_now;
         mk_refined_row "2024-03" (Some 150%float) (Some 20%float)
                        (Some 75%float) (Some 50%float) demo_now ].
Proof. vm_compute. reflexivity. Qed.

End RefinedJoinClaims.

(** ** From the raw tables to the refined table *)

Section PipelineFacts.
Import Sql Trusted Refined.

(** Two raw tables of three aligned months each: the refined table has
    three rows in the order of the periods, and the changes of the first
    one are NULL. *)
Example pipeline_three_periods :
  (icc_trusted ← transform_icc_data
                   [ demo_raw_row Config.icc_columns "2024-02-01" "125";
                     demo_raw_row Config.icc_columns "2024-01-01" "100";
                     demo_raw_row Config.icc_columns "2024-03-01" "150" ];
   icf_trusted ← transform_icf_data
                   [ demo_raw_row Config.icf_columns "2024-01-01" "50";
                     demo_raw_row Config.icf_columns "2024-02-01" "75";
                     demo_raw_row Config.icf_columns "2024-03-01" "150" ];
   transform_refined_data icc_trusted icf_trusted demo_now)
  = Ok [ mk_refined_row "2024-01" (Some 100%float) None (Some 50%float) None demo_now;
         mk_refined_row "2024-02" (Some 125%float) (Some 25%float)
                        (Some 75%float) (Some 50%float) demo_now;
         mk_refined_row "2024-03" (Some 150%float) (Some 20%float)
                        (Some 150%float) (Some 100%float) demo_now ].
Proof. vm_compute. reflexivity. Qed.

End PipelineFacts.

(** ** The run orchestrator *)

Section OrchestratorFacts.
Import Orchestrator.

Lemma appends_ret P {A : Type} (a : A) : appends P (mret a).
Proof. intros env tr. exists []. by rewrite app_nil_r. Qed.

Lemma appends_perform (P : action -> Prop) a : P a -> appends P (perform a).
Proof. intros Ha env tr. exists [a]. split; [done|]. by repeat constructor. Qed.

Lemma appends_bind P {A B : Type} (m : run A) (k : A -> run B) :
  appends P m -> (forall a, appends P (k a)) -> appends P (m ≫= k).
Proof.
  intros Hm Hk env tr. unfold mbind, run_bind.
  destruct (Hm env tr) as (evs & Htr & Hevs).
  destruct (m env tr) as [[a|e] tr'] eqn:Hrun; simpl in Htr; subst tr'.
  - destruct (Hk a env (tr ++ evs)) as (evs' & Htr' & Hevs').
    exists (evs ++ evs'). rewrite Htr', app_assoc. split; [done|].
    by apply Forall_app.
  - by exists evs.
Qed.

Lemma appends_for_each P {A : Type} (f : A -> run unit) l :
  (forall a, appends P (f a)) -> appends P (for_each f l).
Proof.
  intros Hf. induction l as [|a l IH]; simpl.
  - apply appends_ret.
  - apply appends_bind; [apply Hf | intros _; apply IH].
Qed.

Lemma appends_process_index idx : appends (fun a => a <> DriverQuit) (process_index idx).
Proof.
  unfold process_index.
  repeat (apply appends_bind; [by apply appends_perform | intros _]).
  by apply appends_perform.
Qed.

Lemma quits_app tr1 tr2 : quits (tr1 ++ tr2) = quits tr1 + quits tr2.
Proof. unfold quits. by rewrite filter_app, length_app. Qed.

Lemma quits_none evs : Forall (fun a => a <> DriverQuit) evs -> quits evs = 0.
Proof.
  unfold quits. induction 1 as [|a evs Ha _ IH]; [done|].
  by rewrite filter_cons_False.
Qed.

(** Once the driver is there, the rest of the run ends with the one and
    only call of [driver.quit()]. *)
Lemma with_driver_trace dataset_uuid env tr :
  exists evs,
    (with_driver dataset_uuid env tr).2 = tr ++ evs ++ [DriverQuit] /\
    Forall (fun a => a <> DriverQuit) evs.
Proof.
  unfold with_driver, try_finally.
  set (body := _ ← for_each process_index (Config.indices dataset_uuid);
               perform TransformRefinedData).
  assert (Hbody : appends (fun a => a <> DriverQuit) body).
  { apply appends_bind.
    - apply appends_for_each, appends_process_index.
    - intros _. by apply appends_perform. }
  destruct (Hbody env tr) as (evs & Htr & Hevs).
  destruct (body env tr) as [r tr'] eqn:Hrun. simpl in Htr. subst tr'.
  exists evs. split; [|done].
  unfold perform. rewrite app_assoc.
  by destruct (env (length (tr ++ evs))).
Qed.

End OrchestratorFacts.

Section OrchestratorClaims.
Import Orchestrator.

(** A run of [main] either stops within the calls made before the driver
    exists, the last of them having failed (or the credentials missing), or
    acquires the driver and goes through [with_driver]. *)
Lemma main_trace credentials dataset_uuid env :
  let tr := (main credentials dataset_uuid env []).2 in
  (exists n, n <= 5 /\ tr = take n (before_driver dataset_uuid) /\
             (n = 5 -> env 4 <> None)) \/
  (env 4 = None /\
   exists evs, tr = before_driver dataset_uuid ++ evs ++ [DriverQuit] /\
               Forall (fun a => a <> DriverQuit) evs).
Proof.
  unfold main, mbind, run_bind, perform at 1 2 3 4 5, mret, run_ret, raise. simpl.
  destruct (env 0) eqn:H0; [left; exists 1; repeat split; [lia | lia]|].
  destruct credentials; [|left; exists 1; repeat split; [lia | lia]].
  simpl.
  destruct (env 1) eqn:H1; [left; exists 2; repeat split; [lia | lia]|].
  destruct (env 2) eqn:H2; [left; exists 3; repeat split; [lia | lia]|].
  destruct (env 3) eqn:H3; [left; exists 4; repeat split; [lia | lia]|].
  destruct (env 4) eqn:H4; [left; exists 5; repeat split; [lia | congruence]|].
  right. split; [done|].
  apply with_driver_trace.
Qed.

(** C9: the browser driver is released exactly once, at the very end of
    the run, on every path that acquired it: whatever stage fails, with
    whatever error, or none.  (A run that fails before the driver exists
    never calls [quit].) *)
Theorem driver_released_exactly_once (credentials : bool) (dataset_uuid : string)
    (env : environment) :
  let tr := (main credentials dataset_uuid env []).2 in
  (driver_acquired env tr -> quits tr = 1 /\ last tr = Some DriverQuit) /\
  (~ driver_acquired env tr -> quits tr = 0).
Proof.
  intros tr. subst tr.
  destruct (main_trace credentials dataset_uuid env)
    as [(n & Hn & -> & Hfail)|(H4 & evs & -> & Hevs)].
  - split.
    + intros (k & Hk & Hnone). exfalso.
      do 6 (try destruct n as [|n]); simpl in Hk;
        do 6 (try destruct k as [|k]); simpl in Hk; try discriminate; try lia.
      by apply Hfail.
    + intros _. do 6 (try destruct n as [|n]); try lia; reflexivity.
  - split.
    + intros _. split.
      * rewrite !quits_app, (quits_none _ Hevs). reflexivity.
      * by rewrite app_assoc, last_snoc.
    + intros Hnot. destruct Hnot. exists 4. by split.
Qed.

Lemma driver_released_exactly_once_witness :
  let tr := (main true "a1b2c3" (fun _ => None) []).2 in
  quits tr = 1 /\ last tr = Some DriverQuit.
Proof.
  apply (proj1 (driver_released_exactly_once true "a1b2c3" (fun _ => None))).
  exists 4. split; reflexivity.
Defined.

(** Every call succeeds: the run ends with [quit]. *)
Example run_all_succeed :
  let '(r, tr) := main true "a1b2c3" (fun _ => None) [] in
  r = Ok () /\ quits tr = 1 /\ last tr = Some DriverQuit /\ length tr = 21.
Proof. vm_compute. repeat split; reflexivity. Qed.

(** The upload of the first index fails: the error reaches the caller
    after [quit] was called. *)
Example run_upload_fails :
  let env := fun n => if Nat.eqb n 9 then Some (ApiError 503) else None in
  let '(r, tr) := main true "a1b2c3" env [] in
  r = Err (ApiError 503) /\ quits tr = 1 /\
  drop 8 tr = [ProcessExcelFile "ps-eng-dados-ds3x-448302.economic_indices_raw_a1b2c3.icc_raw";
               UploadToBigquery "ps-eng-dados-ds3x-448302.economic_indices_raw_a1b2c3.icc_raw";
               DriverQuit].
Proof. vm_compute. repeat split; reflexivity. Qed.

End OrchestratorClaims.

(* ===================================================================== *)
(** * Part III: further properties of the code                           *)
(* ===================================================================== *)

(** ** Column names *)

Section SanitizeMore.
Import Sanitize Props.

Lemma is_clean_Forall s :
  is_clean s = true <-> Forall (fun c => is_clean_char c = true) (list_ascii_of_string s).
Proof.
  induction s as [|c s IH]; simpl.
  - split; [constructor | done].
  - rewrite andb_true_iff, IH. split.
    + intros [Hc Hs]. by constructor.
    + intros H. by inversion H.
Qed.

(** X1: a sanitised column name is made of lower-case ASCII letters, digits
    and underscores only, whatever the name was. *)
Theorem sanitize_alphabet (x : string) :
  Forall (fun c => Str.is_lower c || Str.is_digit c || Ascii.eqb c "_" = true)
         (list_ascii_of_string (sanitize x)).
Proof. apply (proj1 (is_clean_Forall (sanitize x))), sanitize_run_clean. Qed.

(** X2: the names sanitisation leaves unchanged are exactly the names over
    [[a-z0-9_]]. *)
Theorem sanitize_fixed_point (x : string) :
  sanitize x = x <-> is_clean x = true.
Proof.
  split.
  - intros H. rewrite <- H. apply sanitize_run_clean.
  - intros H. unfold sanitize, re_sub.
    rewrite (re_sub_run_clean x H). by apply lower_clean.
Qed.

Lemma lower_length s : String.length (Str.lower s) = String.length s.
Proof. induction s as [|c s IH]; simpl; congruence. Qed.

Lemma re_sub_run_length s : forall b,
  String.length (re_sub_run b s) <= String.length s.
Proof.
  induction s as [|c s IH]; intros b; simpl; [lia|].
  destruct (is_word_char c); simpl.
  - specialize (IH false). lia.
  - destruct b; simpl; specialize (IH true); lia.
Qed.

(** X3: sanitisation never makes a name longer. *)
Theorem sanitize_length (x : string) :
  String.length (sanitize x) <= String.length x.
Proof. unfold sanitize, re_sub. rewrite lower_length. apply re_sub_run_length. Qed.

Lemma re_sub_run_nonword s rest : forall b,
  all_nonword s = true -> s <> EmptyString ->
  re_sub_run b (s ++ rest) =
    ((if b then EmptyString else "_") ++ re_sub_run true rest)%string.
Proof.
  induction s as [|c s IH]; intros b Hs Hne; [done|].
  simpl in Hs. apply andb_prop in Hs as [Hc Hs]. apply negb_true_iff in Hc.
  simpl. rewrite Hc.
  destruct s as [|c' s].
  - simpl. by destruct b.
  - destruct b.
    + by rewrite (IH true Hs).
    + by rewrite (IH true Hs).
Qed.

Lemma re_sub_run_separator a s1 s2 rest : forall b,
  all_nonword s1 = true -> s1 <> EmptyString ->
  all_nonword s2 = true -> s2 <> EmptyString ->
  re_sub_run b (a ++ s1 ++ rest) = re_sub_run b (a ++ s2 ++ rest).
Proof.
  induction a as [|c a IH]; intros b H1 N1 H2 N2.
  - change (re_sub_run b (s1 ++ rest) = re_sub_run b (s2 ++ rest)).
    by rewrite (re_sub_run_nonword s1 rest b H1 N1), (re_sub_run_nonword s2 rest b H2 N2).
  - change (re_sub_run b (String c (a ++ s1 ++ rest))
            = re_sub_run b (String c (a ++ s2 ++ rest))).
    simpl. destruct (is_word_char c); [|destruct b]; by rewrite (IH _ H1 N1 H2 N2).
Qed.

(** X4: only the places of the runs of characters outside [[a-zA-Z0-9_]]
    survive sanitisation, not what the runs are made of: two names that
    differ in one such run (both non-empty) get the same sanitised name, so
    distinct column names can collide. *)
Theorem sanitize_separator_runs (a s1 s2 b : string)
    (H1 : all_nonword s1 = true) (N1 : s1 <> EmptyString)
    (H2 : all_nonword s2 = true) (N2 : s2 <> EmptyString) :
  sanitize (a ++ s1 ++ b) = sanitize (a ++ s2 ++ b).
Proof.
  unfold sanitize, re_sub. f_equal. by apply re_sub_run_separator.
Qed.

Lemma sanitize_separator_runs_witness :
  sanitize "ICC até 10 SM" = sanitize "ICC - até (10) SM".
Proof.
  pose proof (sanitize_separator_runs "ICC" " " " - " "até 10 SM"
                eq_refl ltac:(discriminate) eq_refl ltac:(discriminate)) as H1.
  pose proof (sanitize_separator_runs "ICC - até" " " " (" "10 SM"
                eq_refl ltac:(discriminate) eq_refl ltac:(discriminate)) as H2.
  pose proof (sanitize_separator_runs "ICC - até (10" " " ") " "SM"
                eq_refl ltac:(discriminate) eq_refl ltac:(discriminate)) as H3.
  exact (eq_trans H1 (eq_trans H2 H3)).
Defined.

End SanitizeMore.

(** ** The normaliser *)

Section NormalizerMore.
Import Normalizer.

(** X5: without a header row the normaliser has nothing to rename.  A
    missing sheet is a [ValueError]; a sheet with no row left after the
    skipped ones is read as the empty frame, so an empty target column list
    gives a frame with the single column [load_timestamp] and no row, and
    any other column list is a length-mismatch [ValueError]. *)
Theorem process_excel_file_no_header file table_id sheet_name cols num_rows utcnow :
  (get_sheet file sheet_name = None ->
   process_excel_file file table_id sheet_name cols num_rows utcnow
     = Err (ValueError "Worksheet not found")) /\
  (forall sh,
     get_sheet file sheet_name = Some sh ->
     length sh <= skiprows_of table_id ->
     process_excel_file file table_id sheet_name cols num_rows utcnow =
       match cols with
       | [] => Ok (mk_dataframe ["load_timestamp"] [])
       | _ :: _ => Err (ValueError "Length mismatch")
       end).
Proof.
  unfold process_excel_file, read_excel. split.
  - by intros ->.
  - intros sh -> Hlen. rewrite drop_ge by done. by destruct cols.
Qed.

Lemma process_excel_file_no_header_witness :
  process_excel_file demo_workbook "proj.ds.icf_raw" "Série Histórica" ["mes"] 181 0
    = Err (ValueError "Worksheet not found") /\
  process_excel_file [("SÉRIE", [[CText "Índice de Confiança"]])] "proj.ds.icc_raw"
                     "SÉRIE" ["mes"] 368 0
    = Err (ValueError "Length mismatch").
Proof.
  split.
  - apply (proj1 (process_excel_file_no_header demo_workbook "proj.ds.icf_raw"
                    "Série Histórica" ["mes"] 181 0)). reflexivity.
  - apply (proj2 (process_excel_file_no_header
                    [("SÉRIE", [[CText "Índice de Confiança"]])] "proj.ds.icc_raw"
                    "SÉRIE" ["mes"] 368 0) [[CText "Índice de Confiança"]]).
    + reflexivity.
    + change (1 <= skiprows_of "proj.ds.icc_raw"). vm_compute. lia.
Defined.



Lemma overwrite_length name value cols : forall row,
  length (overwrite name value cols row) = length row.
Proof.
  induction cols as [|c cols IH]; intros [|x row]; simpl; auto.
Qed.

Lemma overwrite_lookup name value cols : forall row i c x,
  cols !! i = Some c -> row !! i = Some x ->
  overwrite name value cols row !! i = Some (if String.eqb c name then value else x).
Proof.
  induction cols as [|c0 cols IH]; intros [|x0 row] [|i] c x; simpl; try done.
  - by intros [= ->] [= ->].
  - apply IH.
Qed.

(** X7: a rectangular sheet gives a rectangular frame: when every data row
    is as wide as the header, every row of the result has exactly one cell
    per column of the result, whether [load_timestamp] was added or
    overwritten. *)
Theorem process_excel_file_rectangular file table_id sheet_name cols num_rows utcnow
    sh header data df
    (Hsheet : get_sheet file sheet_name = Some sh)
    (Hrows : drop (skiprows_of table_id) sh = header :: data)
    (Hrect : Forall (fun r => length r = length header) data)
    (Hdf : process_excel_file file table_id sheet_name cols num_rows utcnow = Ok df) :
  Forall (fun r => length r = length (columns df)) (rows df).
Proof.
  rewrite (process_excel_file_header _ _ _ _ _ _ _ _ _ Hsheet Hrows) in Hdf.
  destruct (Nat.eqb (length header) (length cols)) eqn:Hcols; [|discriminate].
  apply Nat.eqb_eq in Hcols. injection Hdf as <-.
  assert (Htake : Forall (fun r => length r = length cols) (take num_rows data)).
  { apply Forall_take. eapply Forall_impl; [exact Hrect|]. simpl. intros r Hr. congruence. }
  unfold set_item, Sanitize.sanitize_column_names. cbn [columns rows].
  destruct (has_column _ _); cbn [columns rows];
    change (map ?f (take num_rows data)) with (f <$> take num_rows data);
    apply Forall_fmap; (eapply Forall_impl; [exact Htake|]); intros r Hr; simpl.
  - by rewrite overwrite_length, length_map.
  - rewrite !length_app, length_map. simpl in *. lia.
Qed.

Lemma process_excel_file_rectangular_witness :
  exists df,
    process_excel_file demo_workbook "proj.ds.icf_raw" "SÉRIE" ["mes"; "icf"] 181 0 = Ok df /\
    Forall (fun r => length r = length (columns df)) (rows df).
Proof.
  destruct (process_excel_file demo_workbook "proj.ds.icf_raw" "SÉRIE" ["mes"; "icf"] 181 0)
    as [df|e] eqn:Hdf; [|vm_compute in Hdf; discriminate].
  exists df. split; [reflexivity|].
  apply (process_excel_file_rectangular demo_workbook "proj.ds.icf_raw" "SÉRIE"
           ["mes"; "icf"] 181 0 demo_sheet demo_header (tail demo_sheet) df eq_refl eq_refl).
  - repeat constructor.
  - exact Hdf.
Defined.

(** X8: a target name that sanitises to [load_timestamp] is not kept beside
    the timestamp: no column is added, every row keeps its width, and in
    every row the cell of each column of that name holds the timestamp of
    the call. *)
Theorem process_excel_file_overwrites file table_id sheet_name cols num_rows utcnow
    sh header data
    (Hsheet : get_sheet file sheet_name = Some sh)
    (Hrows : drop (skiprows_of table_id) sh = header :: data)
    (Hcols : length header = length cols)
    (Hclash : has_column "load_timestamp" (map Sanitize.sanitize cols) = true) :
  exists df,
    process_excel_file file table_id sheet_name cols num_rows utcnow = Ok df /\
    columns df = map Sanitize.sanitize cols /\
    length (rows df) = Nat.min num_rows (length data) /\
    forall k row new_row,
      take num_rows data !! k = Some row -> rows df !! k = Some new_row ->
      length new_row = length row /\
      forall i, map Sanitize.sanitize cols !! i = Some "load_timestamp" ->
                i < length row -> new_row !! i = Some (CDatetime utcnow).
Proof.
  rewrite (process_excel_file_header _ _ _ _ _ _ _ _ _ Hsheet Hrows).
  apply Nat.eqb_eq in Hcols. rewrite Hcols.
  unfold set_item, Sanitize.sanitize_column_names. cbn [columns rows]. rewrite Hclash.
  eexists. split; [reflexivity|]. cbn [columns rows]. split; [done|]. split.
  - by rewrite length_map, length_take.
  - intros k row new_row Hk Hnew.
    change (map ?f ?l) with (f <$> l) in Hnew.
    rewrite list_lookup_fmap, Hk in Hnew. injection Hnew as <-.
    split; [apply overwrite_length|].
    intros i Hname Hi. apply lookup_lt_is_Some_2 in Hi as [x Hx].
    rewrite (overwrite_lookup _ _ _ _ i _ x Hname Hx). by rewrite String.eqb_refl.
Qed.

Lemma process_excel_file_overwrites_witness :
  exists df,
    process_excel_file demo_workbook "proj.ds.icf_raw" "SÉRIE" ["mes"; "Load Timestamp"] 2 7
      = Ok df /\
    columns df = ["mes"; "load_timestamp"] /\
    length (rows df) = 2 /\
    forall new_row, rows df !! 0 = Some new_row ->
      length new_row = 2 /\ new_row !! 1 = Some (CDatetime 7).
Proof.
  destruct (process_excel_file_overwrites demo_workbook "proj.ds.icf_raw" "SÉRIE"
              ["mes"; "Load Timestamp"] 2 7 demo_sheet demo_header (tail demo_sheet)
              eq_refl eq_refl eq_refl eq_refl) as (df & Hdf & Hcols & Hlen & Hcells).
  exists df. split; [exact Hdf|]. split; [exact Hcols|]. split; [exact Hlen|].
  intros new_row Hnew.
  destruct (Hcells 0 [CText "2024-01"; CNumber 100%float] new_row eq_refl Hnew)
    as [Hwidth Hstamp].
  split; [exact Hwidth|]. apply Hstamp; [reflexivity | simpl; lia].
Defined.



(** The descriptors of a run: one row is skipped for icc, none for icf. *)
Lemma skiprows_of_run_descriptors_witness :
  skiprows_of (Config.raw_table (Config.icc_index "0f3a9c")) = 1 /\
  skiprows_of (Config.raw_table (Config.icf_index "0f3a9c")) = 0.
Proof. exact (skiprows_of_run_descriptors "0f3a9c" eq_refl). Defined.

End NormalizerMore.

(** ** The download watcher *)

Section WatcherMore.
Import Watcher.

Lemma endswith_app suffix a b :
  Str.endswith suffix b = true -> Str.endswith suffix (a ++ b) = true.
Proof.
  intros Hb. induction a as [|c a IH]; [exact Hb|].
  change (String.eqb suffix (String c (a ++ b)) || Str.endswith suffix (a ++ b) = true).
  rewrite IH. apply orb_true_r.
Qed.

Lemma endswith_path_join suffix a b :
  Str.endswith suffix b = true -> Str.endswith suffix (path_join a b) = true.
Proof.
  intros Hb. unfold path_join.
  destruct (Str.startswith "/" b); [done|].
  destruct (String.eqb a EmptyString || Str.endswith "/" a).
  - by apply endswith_app.
  - apply endswith_app. by apply (endswith_app suffix "/" b).
Qed.

(** X10: the path the watcher returns always ends in [.xlsx]; and when the
    folder is not empty and does not end in a slash and no listed name
    starts with one, it is the folder, a slash and the name of a file that
    was listed after the click and not before it. *)
Theorem watcher_result_path (w : world) (folder : string) (timeout : float)
    (fuel : nat) (p : string)
    (Hp : wait_for_file_download w folder timeout fuel = Some (Ok p)) :
  Str.endswith ".xlsx" p = true /\
  (folder <> EmptyString -> Str.endswith "/" folder = false ->
   (forall i file, file ∈ listing w i -> Str.startswith "/" file = false) ->
   exists i file, downloaded w i file /\ p = (folder ++ "/" ++ file)%string).
Proof.
  unfold wait_for_file_download in Hp. destruct (click w); [discriminate|].
  destruct (poll_sound w folder timeout fuel 0 p Hp) as (j & file & _ & Hd & ->).
  split.
  - apply endswith_path_join. apply Hd.
  - intros Hne Hslash Hrel. exists j, file. split; [done|].
    unfold path_join. rewrite (Hrel j file (proj1 Hd)), Hslash.
    destruct folder; [done|]. reflexivity.
Qed.

Lemma watcher_result_path_witness :
  Str.endswith ".xlsx" "/downloads/icc.xlsx" = true.
Proof.
  exact (proj1 (watcher_result_path demo_world "/downloads" 60 5 "/downloads/icc.xlsx"
                  eq_refl)).
Defined.

End WatcherMore.

(** ** The layer provisioner *)

Section ProvisionerMore.
Import Provisioner Props.

(** X11: provisioning never touches what is there: a dataset that exists
    keeps its location (also the one asked for, whatever its location is),
    and the entry of every other identifier is as before. *)
Theorem provision_preserves (id : string) (w w' : warehouse) (r : res unit)
    (Hcall : create_bigquery_dataset id w = (r, w')) :
  (forall id' location,
     datasets w !! id' = Some location -> datasets w' !! id' = Some location) /\
  (forall id', id' <> id -> datasets w' !! id' = datasets w !! id').
Proof.
  destruct (create_bigquery_dataset_cases _ _ _ _ Hcall)
    as [(_ & _ & Hd & _)|[(_ & Hno & Hd & _)|(c & _ & _ & Hd & _)]]; rewrite Hd.
  - done.
  - split.
    + intros id' location Hid'. rewrite lookup_insert_ne; [done|]. congruence.
    + intros id' Hne. by rewrite lookup_insert_ne.
  - done.
Qed.

Lemma provision_preserves_witness :
  let w := mk_warehouse {[ "proj.legacy" := "EU" ]} [] [] in
  (create_bigquery_dataset "proj.legacy" w).2 = w /\
  datasets (create_bigquery_dataset "proj.new" w).2 !! "proj.legacy" = Some "EU".
Proof.
  intros w. split.
  - reflexivity.
  - exact (proj1 (provision_preserves "proj.new" w _ _ (surjective_pairing _))
             "proj.legacy" "EU" eq_refl).
Defined.

(** X12: what a call leaves behind.  After a successful call the dataset
    exists; if it did not exist before, it was created in the location
    [US] and logged once.  A failed call has created nothing. *)
Theorem provision_postcondition (id : string) (w w' : warehouse) (r : res unit)
    (Hcall : create_bigquery_dataset id w = (r, w')) :
  (r = Ok () ->
     is_Some (datasets w' !! id) /\
     (datasets w !! id = None ->
        datasets w' !! id = Some "US" /\ created w' = created w ++ [id])) /\
  (forall e, r = Err e -> datasets w' = datasets w /\ created w' = created w).
Proof.
  destruct (create_bigquery_dataset_cases _ _ _ _ Hcall)
    as [(-> & Hin & Hd & Hc & _)|[(-> & Hno & Hd & Hc & _)|(c & -> & _ & Hd & Hc & _)]].
  - split; [|discriminate]. intros _. rewrite Hd. split; [done|].
    intros Hnone. rewrite Hnone in Hin. by destruct Hin.
  - split; [|discriminate]. intros _. rewrite Hd, lookup_insert_eq. eauto.
  - split; [discriminate|]. done.
Qed.

Lemma provision_postcondition_witness :
  let w' := (create_bigquery_dataset "proj.raw" empty_warehouse).2 in
  datasets w' !! "proj.raw" = Some "US" /\ created w' = ["proj.raw"].
Proof.
  intros w'.
  exact (proj2 (proj1 (provision_postcondition "proj.raw" empty_warehouse w' (Ok ())
                         eq_refl) eq_refl) eq_refl).
Defined.

Lemma run_call_consistent c w : consistent_log w -> consistent_log (run_call c w).2.
Proof.
  intros [Hnodup Hexists].
  assert (Hgen : forall id, consistent_log (create_bigquery_dataset id w).2).
  { intros id.
    destruct (create_bigquery_dataset id w) as [r w'] eqn:Hcall. simpl.
    destruct (create_bigquery_dataset_cases _ _ _ _ Hcall)
      as [(_ & _ & Hd & Hc & _)|[(_ & Hno & Hd & Hc & _)|(code & _ & _ & Hd & Hc & _)]];
      unfold consistent_log; rewrite Hd, Hc; try done.
    split.
    - apply NoDup_app. split; [done|]. split; [|apply NoDup_singleton].
      intros x Hx ->%list_elem_of_singleton.
      destruct (Hexists _ Hx) as [? Hsome]. congruence.
    - intros x [Hx| ->%list_elem_of_singleton]%elem_of_app.
      + destruct (decide (x = id)) as [->|Hne].
        * rewrite lookup_insert_eq. eauto.
        * rewrite lookup_insert_ne by done. by apply Hexists.
      + rewrite lookup_insert_eq. eauto. }
  destruct c as [id|name]; simpl.
  - apply Hgen.
  - rewrite create_trusted_dataset_unfold. apply Hgen.
Qed.

(** X13: however often and in whatever order the two provisioning functions
    are called, and whichever of the requests fail, no dataset is created
    twice and every dataset logged as created exists: the consistency of the
    creation log is kept by any series of calls. *)
Theorem provision_calls_consistent (cs : list provision_call) (w : warehouse)
    (Hw : consistent_log w) :
  consistent_log (run_calls cs w).
Proof.
  revert w Hw. induction cs as [|c cs IH]; intros w Hw; simpl; [done|].
  apply IH. by apply run_call_consistent.
Qed.

Lemma provision_calls_consistent_witness :
  NoDup (created (run_calls [ CallCreateTrustedDataset "trusted_a1b2c3";
                              CallCreateBigqueryDataset "ps-eng-dados-ds3x-448302.trusted_a1b2c3";
                              CallCreateTrustedDataset "trusted_a1b2c3" ]
                            (mk_warehouse ∅ [] [None; Some 500; None]))).
Proof.
  apply (provision_calls_consistent _ (mk_warehouse ∅ [] [None; Some 500; None])).
  split; [apply NoDup_nil_2|]. intros id Hid. inversion Hid.
Defined.

End ProvisionerMore.

Section ProvisionLayers.
Import Provisioner Props.

Lemma create_absent id w :
  faults w = [] -> datasets w !! id = None ->
  create_bigquery_dataset id w =
    (Ok (), mk_warehouse (<[id := "US"]> (datasets w)) (created w ++ [id]) []).
Proof.
  intros Hf Hid. unfold create_bigquery_dataset, get_dataset, create_dataset, next_fault.
  rewrite Hf. simpl. rewrite Hid. simpl. rewrite Hf, Hid. simpl. by rewrite Hf.
Qed.

(** The three identifiers [main] composes from a run identifier differ. *)
Lemma layer_ids_distinct u :
  let raw := Config.raw_dataset_id u in
  let trusted := (Config.PROJECT_ID ++ "." ++ Config.trusted_dataset u)%string in
  let refined := (Config.PROJECT_ID ++ "." ++ Config.refined_dataset u)%string in
  raw <> trusted /\ raw <> refined /\ trusted <> refined.
Proof.
  repeat split; intros H;
    cbv [String.append Config.raw_dataset_id Config.trusted_dataset
         Config.refined_dataset Config.PROJECT_ID] in H; discriminate.
Qed.

(** X14: the provisioning at the start of [main].  For every run
    identifier the three layers get three different datasets; on a warehouse
    that has none of them, and with no request failing, the three calls
    succeed and create exactly these three, raw, trusted, refined, in that
    order and in the location [US], leaving every other dataset alone. *)
Theorem provision_layers_creates (u : string) (w : warehouse)
    (Hfaults : faults w = [])
    (Hraw : datasets w !! Config.raw_dataset_id u = None)
    (Htrusted : datasets w !! (Config.PROJECT_ID ++ "." ++ Config.trusted_dataset u)%string = None)
    (Hrefined : datasets w !! (Config.PROJECT_ID ++ "." ++ Config.refined_dataset u)%string = None) :
  let raw := Config.raw_dataset_id u in
  let trusted := (Config.PROJECT_ID ++ "." ++ Config.trusted_dataset u)%string in
  let refined := (Config.PROJECT_ID ++ "." ++ Config.refined_dataset u)%string in
  exists w',
    provision_layers u w = (Ok (), w') /\
    created w' = created w ++ [raw; trusted; refined] /\
    datasets w' = <[refined := "US"]> (<[trusted := "US"]> (<[raw := "US"]> (datasets w))).
Proof.
  intros raw trusted refined.
  destruct (layer_ids_distinct u) as (H12 & H13 & H23).
  fold raw trusted refined in H12, H13, H23, Hraw, Htrusted, Hrefined.
  unfold provision_layers. fold raw.
  rewrite (create_absent raw w Hfaults Hraw).
  rewrite create_trusted_dataset_unfold. fold trusted.
  rewrite (create_absent trusted);
    [|reflexivity|cbn [datasets]; by rewrite lookup_insert_ne].
  cbn [datasets created faults].
  rewrite create_trusted_dataset_unfold. fold refined.
  rewrite (create_absent refined);
    [|reflexivity|cbn [datasets]; by rewrite !lookup_insert_ne].
  cbn [datasets created faults].
  eexists. split; [reflexivity|]. cbn [datasets created]. split; [|done].
  by rewrite <- !app_assoc.
Qed.

Lemma provision_layers_creates_witness :
  exists w',
    provision_layers "a1b2c3" empty_warehouse = (Ok (), w') /\
    created w' = [ "ps-eng-dados-ds3x-448302.economic_indices_raw_a1b2c3";
                   "ps-eng-dados-ds3x-448302.economic_indices_trusted_a1b2c3";
                   "ps-eng-dados-ds3x-448302.economic_indices_refined_a1b2c3" ].
Proof.
  destruct (provision_layers_creates "a1b2c3" empty_warehouse eq_refl eq_refl eq_refl eq_refl)
    as (w' & Hrun & Hcreated & _).
  exists w'. split; [exact Hrun | exact Hcreated].
Defined.

End ProvisionLayers.

(** ** The trusted transformers *)

Section TrustedMore.
Import Sql Trusted.

Lemma select_item_name r item cell : select_item r item = Ok cell -> cell.1 = item.1.
Proof.
  unfold select_item. destruct (raw_column r item.1); [|discriminate].
  destruct (eval_rule item.2 o); simpl; [|discriminate]. by intros [= <-].
Qed.

Lemma select_row_names r items o :
  Forall2 (fun item cell => select_item r item = Ok cell) items o ->
  o.*1 = items.*1.
Proof.
  induction 1 as [|item cell items o H _ IH]; [done|].
  rewrite !fmap_cons. by rewrite (select_item_name _ _ _ H), IH.
Qed.

Lemma select_from_rows items raw out :
  select_from items raw = Ok out ->
  Forall2 (fun r o => Forall2 (fun item cell => select_item r item = Ok cell) items o)
          raw out.
Proof.
  intros H. apply res_map_Ok in H.
  eapply Forall2_impl; [exact H|]. intros r o Hro. by apply res_map_Ok.
Qed.

(** X15: the shape of a trusted table.  Either transform gives one trusted
    row per raw row: the k-th trusted row is the SELECT list of the query
    evaluated on the k-th raw row, and it has exactly the columns of the
    index descriptor followed by [load_timestamp], in that order. *)
Theorem trusted_shape (raw : raw_table) :
  (forall out, transform_icc_data raw = Ok out ->
     length out = length raw /\
     Forall2 (fun r o => res_map (select_item r) icc_items = Ok o) raw out /\
     Forall (fun o => o.*1 = Config.icc_columns ++ ["load_timestamp"]) out) /\
  (forall out, transform_icf_data raw = Ok out ->
     length out = length raw /\
     Forall2 (fun r o => res_map (select_item r) icf_items = Ok o) raw out /\
     Forall (fun o => o.*1 = Config.icf_columns ++ ["load_timestamp"]) out).
Proof.
  split; intros out Hout;
    (split; [symmetry; eapply Forall2_length, select_from_rows, Hout|]);
    (split; [exact (res_map_Ok _ _ _ Hout)|]);
    apply select_from_rows in Hout;
    (eapply Forall2_Forall_r; [exact Hout|]);
    apply Forall_forall; intros r _ o Hro;
    by rewrite (select_row_names _ _ _ Hro).
Qed.

Lemma trusted_shape_witness :
  exists out,
    transform_icc_data [demo_icc_raw_row "2024-01-01" "nan";
                        demo_icc_raw_row "2024-02-01" "98.25"] = Ok out /\
    length out = 2 /\
    Forall2 (fun r o => res_map (select_item r) icc_items = Ok o)
            [demo_icc_raw_row "2024-01-01" "nan"; demo_icc_raw_row "2024-02-01" "98.25"]
            out.
Proof.
  destruct (transform_icc_data [demo_icc_raw_row "2024-01-01" "nan";
                                demo_icc_raw_row "2024-02-01" "98.25"])
    as [out|e] eqn:Hout; [|vm_compute in Hout; discriminate].
  exists out. split; [reflexivity|].
  destruct (proj1 (trusted_shape _) out Hout) as (Hlen & Hrows & _).
  split; [exact Hlen | exact Hrows].
Defined.

(** The cell of a column in a row the transform produced. *)
Lemma select_row_column r items : forall o c rule,
  Forall2 (fun item cell => select_item r item = Ok cell) items o ->
  NoDup items.*1 -> (c, rule) ∈ items ->
  exists v x, raw_column r c = Some v /\ eval_rule rule v = Ok x /\ column o c = Some x.
Proof.
  induction items as [|[c0 rule0] items IH]; intros o c rule Hrow Hnodup Hin.
  - inversion Hin.
  - inversion Hrow as [|? cell ? o' Hcell Hrest]; subst.
    simpl in Hnodup. apply NoDup_cons in Hnodup as [Hfresh Hnodup].
    apply elem_of_cons in Hin as [[= -> ->]|Hin].
    + unfold select_item in Hcell. cbn [fst snd] in Hcell.
      destruct (raw_column r c0) as [v|]; [|discriminate].
      destruct (eval_rule rule0 v) as [x|] eqn:Hx; simpl in Hcell; [|discriminate].
      injection Hcell as <-. exists v, x. simpl. by rewrite String.eqb_refl.
    + destruct (IH o' c rule Hrest Hnodup Hin) as (v & x & Hv & Hx & Hcol).
      exists v, x. split; [done|]. split; [done|].
      pose proof (select_item_name _ _ _ Hcell) as Hname. cbn [fst snd] in Hname.
      destruct cell as [n y]. simpl in *. subst n.
      destruct (String.eqb_spec c0 c) as [->|Hne]; [|done].
      destruct Hfresh. apply list_elem_of_fmap. by exists (c, rule).
Qed.

Lemma icc_item_names_nodup : NoDup icc_items.*1.
Proof. apply (bool_decide_unpack _). vm_compute. exact I. Qed.

Lemma icf_item_names_nodup : NoDup icf_items.*1.
Proof. apply (bool_decide_unpack _). vm_compute. exact I. Qed.

(** X16: in a trusted icc table the twelve default-on-invalid columns never
    hold NULL or the not-a-number value: every row has a number there. *)
Theorem icc_default_columns_hold_numbers (raw : raw_table) (out : table)
    (o : row) (c : string)
    (Hout : transform_icc_data raw = Ok out)
    (Ho : o ∈ out)
    (Hc : default_on_invalid icc_items c) :
  exists x, column o c = Some (VFloat64 (Some x)) /\ is_nan x = false.
Proof.
  apply select_from_rows in Hout.
  apply list_elem_of_lookup in Ho as [k Hk].
  destruct (Forall2_lookup_r _ _ _ _ _ Hout Hk) as (r & _ & Hrow).
  destruct (select_row_column r icc_items o c CastFloat64OrZero Hrow
              icc_item_names_nodup Hc) as (v & x & _ & Hx & Hcol).
  rewrite eval_rule_or_zero in Hx.
  destruct (cast_float64 v) as [[y|]|e]; [| |discriminate]; injection Hx as <-.
  - exists (if is_nan y then zero else y). split; [done|].
    by destruct (is_nan y) eqn:Hy.
  - by exists zero.
Qed.

Lemma icc_default_columns_hold_numbers_witness :
  exists out o x,
    transform_icc_data [demo_icc_raw_row "2024-01-01" "nan"] = Ok out /\ o ∈ out /\
    column o "icc_mulheres" = Some (VFloat64 (Some x)) /\ is_nan x = false.
Proof.
  destruct (transform_icc_data [demo_icc_raw_row "2024-01-01" "nan"])
    as [[|o out]|e] eqn:Hout; try (vm_compute in Hout; discriminate).
  assert (Hc : default_on_invalid icc_items "icc_mulheres").
  { apply icc_default_on_invalid. set_solver. }
  assert (Ho : o ∈ o :: out) by apply list_elem_of_here.
  destruct (icc_default_columns_hold_numbers _ (o :: out) o "icc_mulheres" Hout Ho Hc)
    as (x & Hx & Hnan).
  exists (o :: out), o, x. repeat split; [exact Ho | exact Hx | exact Hnan].
Defined.

(** X17: the icf transform has no default: every column of an icf row but
    [mes] and [load_timestamp] is the plain cast of the raw cell, so NULL
    stays NULL and the not-a-number text becomes the not-a-number value. *)
Theorem icf_columns_are_plain_casts (raw : raw_table) (out : table)
    (k : nat) (r : raw_row) (o : row) (c : string)
    (Hout : transform_icf_data raw = Ok out)
    (Hr : raw !! k = Some r) (Ho : out !! k = Some o)
    (Hc : c ∈ Config.icf_columns) (Hmes : c <> "mes") :
  exists v x,
    raw_column r c = Some v /\ cast_float64 v = Ok x /\
    column o c = Some (VFloat64 x) /\
    (v = None -> x = None).
Proof.
  apply select_from_rows in Hout.
  pose proof (Forall2_lookup_lr _ _ _ _ _ _ Hout Hr Ho) as Hrow.
  assert (Hitem : (c, CastFloat64) ∈ icf_items).
  { unfold Config.icf_columns in Hc. unfold icf_items.
    repeat (apply elem_of_cons in Hc as [->|Hc];
            [first [done | set_solver]|]).
    inversion Hc. }
  destruct (select_row_column r icf_items o c CastFloat64 Hrow
              icf_item_names_nodup Hitem) as (v & x & Hv & Hx & Hcol).
  unfold eval_rule in Hx.
  destruct (cast_float64 v) as [y|e] eqn:Hy; simpl in Hx; [|discriminate].
  injection Hx as <-. exists v, y. repeat split; try done.
  intros ->. simpl in Hy. by injection Hy as <-.
Qed.

Lemma icf_columns_are_plain_casts_witness :
  exists out o v x,
    transform_icf_data [demo_raw_row Config.icf_columns "2024-01-01" "nan"] = Ok out /\
    out !! 0 = Some o /\
    raw_column (demo_raw_row Config.icf_columns "2024-01-01" "nan") "icf" = Some v /\
    cast_float64 v = Ok x /\ column o "icf" = Some (VFloat64 x) /\ (v = None -> x = None).
Proof.
  destruct (transform_icf_data [demo_raw_row Config.icf_columns "2024-01-01" "nan"])
    as [[|o out]|e] eqn:Hout; try (vm_compute in Hout; discriminate).
  destruct (icf_columns_are_plain_casts _ (o :: out) 0 _ o "icf" Hout eq_refl eq_refl)
    as (v & x & H1 & H2 & H3 & H4).
  - set_solver.
  - discriminate.
  - exists (o :: out), o, v, x. repeat split; done.
Defined.

Lemma res_map_app {A B : Type} (f : A -> res B) (l1 l2 : list A) :
  res_map f (l1 ++ l2) =
    (x ← res_map f l1; y ← res_map f l2; Ok (x ++ y)).
Proof.
  induction l1 as [|a l1 IH]; simpl.
  - by destruct (res_map f l2).
  - destruct (f a) as [b|e]; simpl; [|done]. rewrite IH.
    destruct (res_map f l1) as [bs|e]; simpl; [|done].
    by destruct (res_map f l2).
Qed.

(** X18: the transforms work row by row.  The trusted table of a raw table
    to which rows were appended is the trusted table of the old rows
    followed by that of the new rows: an append to the raw table never
    changes the trusted rows of what was there, and one bad row anywhere
    fails the whole table. *)
Theorem trusted_of_appended_rows (old new : raw_table) :
  transform_icc_data (old ++ new) =
    (x ← transform_icc_data old; y ← transform_icc_data new; Ok (x ++ y)) /\
  transform_icf_data (old ++ new) =
    (x ← transform_icf_data old; y ← transform_icf_data new; Ok (x ++ y)).
Proof. split; apply res_map_app. Qed.

End TrustedMore.

(** ** The refined transformer *)

Section RefinedMore.
Import Sql Refined Props.

Lemma join_nil_r icc_data : join icc_data [] = [].
Proof. unfold join. induction icc_data as [|i l IH]; [done|]. simpl. exact IH. Qed.

(** X19: an empty trusted table on either side gives an empty refined
    table, not an error, whatever the other table holds. *)
Theorem refined_of_empty_table (t : series) (now : timestamp) :
  refined_query t [] now = Ok [] /\ refined_query [] t now = Ok [].
Proof.
  unfold refined_query. split.
  - change (series_data []) with (@nil series_row). by rewrite join_nil_r.
  - reflexivity.
Qed.

Lemma date_leb_spec a b :
  date_leb a b = true <->
  (year a < year b \/
   (year a = year b /\ (month a < month b \/ (month a = month b /\ day a <= day b))))%Z.
Proof.
  unfold date_leb.
  rewrite orb_true_iff, andb_true_iff, orb_true_iff, andb_true_iff.
  rewrite !Z.ltb_lt, !Z.eqb_eq, Z.leb_le. tauto.
Qed.

#[global] Instance by_mes_trans : Transitive by_mes.
Proof.
  intros [[a|] x] [[b|] y] [[c|] z]; unfold by_mes; simpl; try done.
  rewrite !Is_true_true, !date_leb_spec. lia.
Qed.

Lemma by_mes_antisym x y : by_mes x y -> by_mes y x -> x.1 = y.1.
Proof.
  destruct x as [[[y1 m1 d1]|] x], y as [[[y2 m2 d2]|] y]; unfold by_mes; simpl; try done.
  rewrite !Is_true_true, !date_leb_spec. simpl. intros H1 H2.
  assert (y1 = y2 /\ m1 = m2 /\ d1 = d2) as (-> & -> & ->) by lia. done.
Qed.

Lemma series_data_permutation t t' :
  t ≡ₚ t' -> distinct_mes t -> series_data t' = series_data t.
Proof.
  intros Hperm Hdistinct. unfold series_data. f_equal.
  apply (Sorted_unique_strong by_mes).
  - intros x y Hx Hy Hxy Hyx.
    rewrite (merge_sort_Permutation by_mes t'), <- Hperm in Hx.
    rewrite (merge_sort_Permutation by_mes t) in Hy.
    apply Hdistinct; [done..|]. by apply by_mes_antisym.
  - apply Sorted_merge_sort, _.
  - apply Sorted_merge_sort, _.
  - by rewrite !merge_sort_Permutation.
Qed.

(** X20: the refined table does not depend on the order in which the
    trusted rows are stored, provided no two rows of a trusted table have
    the same [mes]: the window order is then fixed by the dates alone. *)
Theorem refined_order_independent (icc icc' icf icf' : series) (now : timestamp)
    (Hicc : icc ≡ₚ icc') (Hicf : icf ≡ₚ icf')
    (Dicc : distinct_mes icc) (Dicf : distinct_mes icf) :
  refined_query icc' icf' now = refined_query icc icf now.
Proof.
  unfold refined_query.
  by rewrite (series_data_permutation icc icc' Hicc Dicc),
             (series_data_permutation icf icf' Hicf Dicf).
Qed.

Lemma demo_icc_distinct : distinct_mes demo_icc.
Proof.
  intros x y Hx Hy. unfold demo_icc in *.
  repeat (apply elem_of_cons in Hx as [->|Hx]); [| | |inversion Hx];
    repeat (apply elem_of_cons in Hy as [->|Hy]); try (inversion Hy; fail);
    simpl; intros H; (done || discriminate).
Qed.

Lemma demo_icf_distinct : distinct_mes demo_icf.
Proof.
  intros x y Hx Hy. unfold demo_icf in *.
  repeat (apply elem_of_cons in Hx as [->|Hx]); [| |inversion Hx];
    repeat (apply elem_of_cons in Hy as [->|Hy]); try (inversion Hy; fail);
    simpl; intros H; (done || discriminate).
Qed.

Lemma refined_order_independent_witness :
  refined_query (reverse demo_icc) (reverse demo_icf) demo_now
    = refined_query demo_icc demo_icf demo_now.
Proof.
  apply refined_order_independent.
  - symmetry. apply reverse_Permutation.
  - symmetry. apply reverse_Permutation.
  - apply demo_icc_distinct.
  - apply demo_icf_distinct.
Defined.

End RefinedMore.

Section RefinedPeriods.
Import Sql Refined Props.

Lemma lag_periods rows : forall before,
  omap ano_mes (lag before rows) = omap (fun r => FORMAT_DATE_Y_m r.1) rows.
Proof.
  induction rows as [|[d x] rows IH]; intros before; [done|].
  change (match FORMAT_DATE_Y_m d with
          | Some y => y :: omap ano_mes (lag x rows)
          | None => omap ano_mes (lag x rows)
          end = omap (fun r : option date * option float => FORMAT_DATE_Y_m r.1)
                     ((d, x) :: rows)).
  by rewrite (IH x).
Qed.

Lemma series_data_keys t : omap ano_mes (series_data t) ≡ₚ periods t.
Proof.
  unfold series_data, periods. rewrite lag_periods.
  by rewrite (merge_sort_Permutation by_mes t).
Qed.

Lemma join_cons i icc_data icf_data :
  join (i :: icc_data) icf_data =
    (pair i <$> filter (fun f => Is_true (same_key i f)) icf_data) ++ join icc_data icf_data.
Proof.
  unfold join. rewrite bind_cons. f_equal.
Qed.

(** A row matches at most one row of a table with one row per period. *)
Lemma matches_at_most_one i icf_data :
  NoDup (omap ano_mes icf_data) ->
  length (filter (fun f => Is_true (same_key i f)) icf_data) <= 1.
Proof.
  induction icf_data as [|f l IH]; [simpl; lia|].
  intros Hnodup. rewrite filter_cons.
  destruct (decide (Is_true (same_key i f))) as [Hk|Hk].
  - apply Is_true_true, same_key_spec in Hk as (k & Hi & Hf).
    simpl in Hnodup. rewrite Hf in Hnodup. apply NoDup_cons in Hnodup as [Hfresh _].
    assert (Hnone : filter (fun f => Is_true (same_key i f)) l = []).
    { destruct (filter (fun f => Is_true (same_key i f)) l) as [|f' fs] eqn:Hfilter; [done|].
      assert (Hin : f' ∈ filter (fun f => Is_true (same_key i f)) l)
        by (rewrite Hfilter; left).
      apply list_elem_of_filter in Hin as [Hk' Hf'].
      apply Is_true_true, same_key_spec in Hk' as (k' & Hi' & Hf'k).
      rewrite Hi in Hi'. injection Hi' as <-.
      destruct Hfresh. apply list_elem_of_omap. eauto. }
    rewrite Hnone. simpl. lia.
  - apply IH. simpl in Hnodup. destruct (ano_mes f); [|done].
    by apply NoDup_cons in Hnodup as [_ ?].
Qed.

Lemma join_keys_subset icc_data icf_data k :
  k ∈ omap (fun p : series_row * series_row => ano_mes p.1) (join icc_data icf_data) ->
  k ∈ omap ano_mes icc_data.
Proof.
  intros ([i f] & Hif & Hk)%list_elem_of_omap.
  apply elem_of_join in Hif as (Hi & _ & _).
  apply list_elem_of_omap. eauto.
Qed.

Lemma join_keys_nodup icc_data icf_data :
  NoDup (omap ano_mes icc_data) -> NoDup (omap ano_mes icf_data) ->
  NoDup (omap (fun p : series_row * series_row => ano_mes p.1) (join icc_data icf_data)).
Proof.
  intros Hicc Hicf. induction icc_data as [|i l IH]; [apply NoDup_nil_2|].
  rewrite join_cons, omap_app.
  pose proof (matches_at_most_one i icf_data Hicf) as Hone.
  assert (Htail : NoDup (omap ano_mes l)).
  { simpl in Hicc. destruct (ano_mes i); [|done]. by apply NoDup_cons in Hicc as [_ ?]. }
  destruct (filter (fun f => Is_true (same_key i f)) icf_data) as [|f [|f' fs]];
    [| |simpl in Hone; lia].
  - simpl. by apply IH.
  - simpl. destruct (ano_mes i) as [k|] eqn:Hk; [|by apply IH].
    apply NoDup_cons. split; [|by apply IH].
    intros Hin%join_keys_subset.
    simpl in Hicc. rewrite Hk in Hicc. by apply NoDup_cons in Hicc as [? _].
Qed.

Lemma joined_rows_keys now pairs rows :
  Forall2 (fun p r => joined_row now p = Ok r) pairs rows ->
  (forall p, p ∈ pairs -> is_Some (ano_mes p.1)) ->
  r_ano_mes <$> rows = omap (fun p : series_row * series_row => ano_mes p.1) pairs.
Proof.
  induction 1 as [|[i f] r pairs rows Hr _ IH]; intros Hkeys; [done|].
  destruct (Hkeys (i, f) (list_elem_of_here _ _)) as [k Hk]. simpl in Hk.
  apply joined_row_Ok in Hr as (Hname & _).
  rewrite fmap_cons. simpl. rewrite Hk. rewrite Hname, Hk. simpl. f_equal.
  apply IH. intros p Hp. apply Hkeys. by right.
Qed.

(** X21: one row per period.  When neither trusted table has two rows in
    the same year-month, no period occurs twice in the refined table: with
    the claim on the periods, every period present in both tables gets
    exactly one row. *)
Theorem refined_one_row_per_period (icc icf : series) (now : timestamp)
    (out : list refined_row)
    (Hicc : NoDup (periods icc)) (Hicf : NoDup (periods icf))
    (Hout : refined_query icc icf now = Ok out) :
  NoDup (r_ano_mes <$> out).
Proof.
  unfold refined_query in Hout.
  destruct (res_map (joined_row now) (join (series_data icc) (series_data icf)))
    as [rows|e] eqn:Hrows; simpl in Hout; [|discriminate].
  injection Hout as <-. rewrite (merge_sort_Permutation by_ano_mes rows).
  rewrite (joined_rows_keys now _ rows (res_map_Ok _ _ _ Hrows)).
  - apply join_keys_nodup; by rewrite series_data_keys.
  - intros [i f] (_ & _ & Hk)%elem_of_join.
    apply same_key_spec in Hk as (k & Hi & _). simpl. eauto.
Qed.

Lemma refined_one_row_per_period_witness :
  exists out, refined_query demo_icc demo_icf demo_now = Ok out /\
              NoDup (r_ano_mes <$> out).
Proof.
  destruct (refined_query demo_icc demo_icf demo_now) as [out|e] eqn:Hq;
    [|vm_compute in Hq; discriminate].
  exists out. split; [reflexivity|].
  apply (refined_one_row_per_period demo_icc demo_icf demo_now out).
  - apply (bool_decide_unpack _). vm_compute. exact I.
  - apply (bool_decide_unpack _). vm_compute. exact I.
  - exact Hq.
Defined.

End RefinedPeriods.

(** ** The run as a whole *)

Section OrchestratorMore.
Import Orchestrator Props.

Lemma first_failure_spec env n : forall pos k e,
  first_failure env pos n = Some (k, e) ->
  pos <= k < pos + n /\ env k = Some e /\ forall j, pos <= j < k -> env j = None.
Proof.
  induction n as [|n IH]; intros pos k e; simpl; [done|].
  destruct (env pos) as [e'|] eqn:Hpos.
  - intros [= <- <-]. repeat split; [lia | lia | done | lia].
  - intros H. destruct (IH _ _ _ H) as (Hk & He & Hbefore).
    repeat split; [lia | lia | done |].
    intros j Hj. destruct (decide (j = pos)) as [->|Hne]; [done|].
    apply Hbefore. lia.
Qed.

Lemma first_failure_None env n : forall pos,
  first_failure env pos n = None <-> forall j, pos <= j < pos + n -> env j = None.
Proof.
  induction n as [|n IH]; intros pos; simpl.
  - split; [lia | done].
  - destruct (env pos) as [e|] eqn:Hpos.
    + split; [done|]. intros H. rewrite H in Hpos; [done | lia].
    + rewrite IH. split.
      * intros H j Hj. destruct (decide (j = pos)) as [->|Hne]; [done|].
        apply H. lia.
      * intros H j Hj. apply H. lia.
Qed.

(** A series of calls stops at the first that fails. *)
Lemma for_each_perform l : forall env tr,
  for_each perform l env tr =
    match first_failure env (length tr) (length l) with
    | None => (Ok (), tr ++ l)
    | Some (k, e) => (Err e, tr ++ take (S (k - length tr)) l)
    end.
Proof.
  induction l as [|a l IH]; intros env tr.
  - simpl. by rewrite app_nil_r.
  - cbn [for_each length first_failure]. unfold mbind, run_bind, perform at 1.
    destruct (env (length tr)) as [e|] eqn:Hfail.
    + by rewrite Nat.sub_diag.
    + rewrite IH, length_app. simpl. rewrite Nat.add_1_r.
      destruct (first_failure env (S (length tr)) (length l)) as [[k e]|] eqn:Hff.
      * apply first_failure_spec in Hff as (Hk & _ & _).
        replace (k - length tr) with (S (k - S (length tr))) by lia.
        by rewrite <- app_assoc.
      * by rewrite <- app_assoc.
Qed.

Lemma run_bind_assoc {A B C : Type} (m : run A) (k : A -> run B) (h : B -> run C) env tr :
  ((m ≫= k) ≫= h) env tr = (m ≫= (fun a => k a ≫= h)) env tr.
Proof. unfold mbind, run_bind. by destruct (m env tr) as [[a|e] tr']. Qed.

Lemma run_bind_ext {A B : Type} (m m' : run A) (k k' : A -> run B) env tr :
  m env tr = m' env tr -> (forall a env tr, k a env tr = k' a env tr) ->
  (m ≫= k) env tr = (m' ≫= k') env tr.
Proof.
  intros Hm Hk. unfold mbind, run_bind. rewrite Hm.
  by destruct (m' env tr) as [[a|e] tr'].
Qed.

Lemma for_each_app {A : Type} (f : A -> run unit) l1 l2 : forall env tr,
  for_each f (l1 ++ l2) env tr = (_ ← for_each f l1; for_each f l2) env tr.
Proof.
  induction l1 as [|a l1 IH]; intros env tr; [done|].
  simpl. rewrite run_bind_assoc.
  apply run_bind_ext; [done|]. intros _. apply IH.
Qed.

Lemma process_index_stages idx env tr :
  process_index idx env tr = for_each perform (stages idx) env tr.
Proof.
  unfold process_index, stages. cbn [for_each].
  unfold mbind, run_bind, perform, mret, run_ret.
  repeat (destruct (env _); [reflexivity|]). reflexivity.
Qed.

Lemma for_each_process_index l : forall env tr,
  for_each process_index l env tr = for_each perform (l ≫= stages) env tr.
Proof.
  induction l as [|idx l IH]; intros env tr; [done|].
  rewrite bind_cons, for_each_app. cbn [for_each].
  apply run_bind_ext; [apply process_index_stages|]. intros _. apply IH.
Qed.

Lemma first_failure_add env n m : forall pos,
  first_failure env pos (n + m) =
    match first_failure env pos n with
    | Some x => Some x
    | None => first_failure env (pos + n) m
    end.
Proof.
  induction n as [|n IH]; intros pos; simpl.
  - by rewrite Nat.add_0_r.
  - destruct (env pos); [done|]. rewrite IH. by rewrite Nat.add_succ_r.
Qed.

Lemma with_driver_run dataset_uuid env tr :
  with_driver dataset_uuid env tr =
    try_finally (for_each perform (driver_stages dataset_uuid)) (perform DriverQuit) env tr.
Proof.
  unfold with_driver, try_finally, driver_stages.
  rewrite for_each_app.
  rewrite (run_bind_ext (for_each process_index (Config.indices dataset_uuid))
             (for_each perform (Config.indices dataset_uuid ≫= stages))
             (fun _ => perform TransformRefinedData)
             (fun _ => for_each perform [TransformRefinedData]));
    [done | apply for_each_process_index|].
  intros _ env' tr'. cbn [for_each]. unfold mbind, run_bind, perform, mret, run_ret.
  by destruct (env' (length tr')).
Qed.

(** [main] with the credentials set: the calls before the driver exists,
    then the guarded part. *)
Lemma main_run dataset_uuid env :
  main true dataset_uuid env [] =
    match first_failure env 0 5 with
    | Some (k, e) => (Err e, take (S k) (before_driver dataset_uuid))
    | None =>
        try_finally (for_each perform (driver_stages dataset_uuid)) (perform DriverQuit)
                    env (before_driver dataset_uuid)
    end.
Proof.
  unfold main, mbind, run_bind, perform at 1 2 3 4 5, mret, run_ret. simpl.
  destruct (env 0); [done|]. destruct (env 1); [done|]. destruct (env 2); [done|].
  destruct (env 3); [done|]. destruct (env 4); [done|].
  apply with_driver_run.
Qed.

(** The guarded part of [main]: the calls up to the first failure, then
    the release of the driver, whose exception replaces the outcome. *)
Lemma guarded_run dataset_uuid env :
  try_finally (for_each perform (driver_stages dataset_uuid)) (perform DriverQuit)
              env (before_driver dataset_uuid) =
    match first_failure env 5 15 with
    | Some (k, e) =>
        (Err (default e (env (S k))), take (S k) (plan dataset_uuid) ++ [DriverQuit])
    | None =>
        (match env 20 with Some e => Err e | None => Ok () end,
         plan dataset_uuid ++ [DriverQuit])
    end.
Proof.
  unfold try_finally. rewrite for_each_perform.
  change (length (before_driver dataset_uuid)) with 5.
  change (length (driver_stages dataset_uuid)) with 15.
  destruct (first_failure env 5 15) as [[k e]|] eqn:Hff.
  - apply first_failure_spec in Hff as (Hk & _ & _).
    unfold perform, plan. rewrite length_app, length_take.
    change (length (before_driver dataset_uuid)) with 5.
    change (length (driver_stages dataset_uuid)) with 15.
    replace (5 + S (k - 5) `min` 15) with (S k) by lia.
    rewrite (take_app (before_driver dataset_uuid)).
    change (length (before_driver dataset_uuid)) with 5.
    rewrite (take_ge (before_driver dataset_uuid)) by (simpl; lia).
    replace (S k - 5) with (S (k - 5)) by lia.
    by destruct (env (S k)).
  - unfold perform, plan. rewrite length_app.
    change (length (before_driver dataset_uuid) + length (driver_stages dataset_uuid)) with 20.
    by destruct (env 20).
Qed.

(** X23: a run of [main] follows one plan.  It makes the calls of the plan
    in the order of the source, up to and including the first that fails,
    and nothing after it but the release of the driver when the driver was
    acquired.  The exception of the release, if any, is what the caller
    sees; otherwise that of the first failing call; otherwise the run
    succeeds. *)
Theorem main_follows_plan (dataset_uuid : string) (env : environment) :
  let p := plan dataset_uuid in
  let '(r, tr) := main true dataset_uuid env [] in
  match first_failure env 0 (length p) with
  | None =>
      tr = p ++ [DriverQuit] /\
      r = match env (length p) with Some e => Err e | None => Ok () end
  | Some (k, e) =>
      if Nat.ltb k 5 then tr = take (S k) p /\ r = Err e
      else tr = take (S k) p ++ [DriverQuit] /\ r = Err (default e (env (S k)))
  end.
Proof.
  intros p. subst p. rewrite main_run.
  change (length (plan dataset_uuid)) with (5 + 15).
  rewrite first_failure_add.
  destruct (first_failure env 0 5) as [[k e]|] eqn:Hff.
  - apply first_failure_spec in Hff as (Hk & _ & _).
    replace (Nat.ltb k 5) with true by (symmetry; apply Nat.ltb_lt; lia).
    split; [|done]. unfold plan.
    rewrite take_app_le; [done|]. simpl. lia.
  - rewrite guarded_run. change (0 + 5) with 5. change (5 + 15) with 20.
    destruct (first_failure env 5 15) as [[k e]|] eqn:Hff'; [|done].
    apply first_failure_spec in Hff' as (Hk & _ & _).
    replace (Nat.ltb k 5) with false by (symmetry; apply Nat.ltb_ge; lia).
    done.
Qed.

(** X24: when a run succeeds.  [main] returns normally exactly when the
    credentials are set and every one of its calls succeeds, the release of
    the driver included.  Without the credentials nothing is done beyond
    making the download folder: no dataset is created and no browser
    started. *)
Theorem main_succeeds_iff (credentials : bool) (dataset_uuid : string)
    (env : environment) :
  let '(r, tr) := main credentials dataset_uuid env [] in
  (r = Ok () <->
     credentials = true /\ forall k, k <= length (plan dataset_uuid) -> env k = None) /\
  (credentials = false ->
     tr = [MakeDirs] /\
     r = Err (default (FileNotFoundError "Google credentials file not found.") (env 0))).
Proof.
  destruct credentials.
  - rewrite main_run.
    change (length (plan dataset_uuid)) with 20.
    destruct (first_failure env 0 5) as [[k e]|] eqn:Hff.
    + apply first_failure_spec in Hff as (Hk & He & _).
      split; [|done]. split; [done|].
      intros [_ Hnone]. rewrite Hnone in He; [done | lia].
    + rewrite guarded_run.
      pose proof (proj1 (first_failure_None env 5 0) Hff) as Hnone.
      destruct (first_failure env 5 15) as [[k e]|] eqn:Hff'.
      * apply first_failure_spec in Hff' as (Hk & He & _).
        split; [|done]. split; [done|].
        intros [_ Hnone']. rewrite Hnone' in He; [done | lia].
      * pose proof (proj1 (first_failure_None env 15 5) Hff') as Hnone'.
        split; [|done]. split.
        -- destruct (env 20) eqn:H20; [done|]. intros _. split; [done|].
           intros k Hk. destruct (decide (k = 20)) as [->|Hne]; [done|].
           destruct (decide (k < 5)); [apply Hnone | apply Hnone']; lia.
        -- intros [_ Hall]. by rewrite Hall by lia.
  - unfold main, mbind, run_bind, perform at 1, raise. simpl.
    destruct (env 0); (split; [|done]); split; try done; by intros [? _].
Qed.

Lemma main_succeeds_iff_witness :
  (main true "a1b2c3" (fun _ => None) []).1 = Ok ().
Proof.
  pose proof (main_succeeds_iff true "a1b2c3" (fun _ => None)) as H.
  destruct (main true "a1b2c3" (fun _ => None) []) as [r tr].
  apply (proj2 (proj1 H)). split; reflexivity.
Defined.

End OrchestratorMore.

(** ** From the frame to the raw table *)

Section LoaderMore.
Import Sql Normalizer Trusted Loader Props.

Lemma process_excel_file_columns file table_id sheet_name cols num_rows utcnow df :
  process_excel_file file table_id sheet_name cols num_rows utcnow = Ok df ->
  columns df =
    if has_column "load_timestamp" (Sanitize.sanitize_column_names cols)
    then Sanitize.sanitize_column_names cols
    else Sanitize.sanitize_column_names cols ++ ["load_timestamp"].
Proof.
  unfold process_excel_file.
  destruct (read_excel file sheet_name num_rows (skiprows_of table_id)) as [df0|e];
    [|discriminate].
  cbn [mbind res_bind]. unfold set_columns.
  destruct (Nat.eqb _ _); [|discriminate].
  cbn [mbind res_bind]. intros [= <-].
  unfold set_item, sanitize_column_names. cbn [columns rows].
  by destruct (has_column _ _).
Qed.

(** The frame of either descriptor of a run has the columns its trusted
    query selects, in the order of the query. *)
Lemma descriptor_columns dataset_uuid idx file utcnow df :
  idx ∈ Config.indices dataset_uuid ->
  process_excel_file file (Config.raw_table idx) (Config.sheet idx) (Config.columns idx)
                     (Config.rows idx) utcnow = Ok df ->
  columns df = (items_of (Config.transform idx)).*1.
Proof.
  intros Hidx Hdf. apply process_excel_file_columns in Hdf. rewrite Hdf.
  unfold Config.indices in Hidx.
  apply elem_of_cons in Hidx as [->|Hidx];
    [|apply elem_of_cons in Hidx as [->|Hidx]; [|inversion Hidx]];
    vm_compute; reflexivity.
Qed.

Lemma schema_of_names df : map field_name (schema_of df) = columns df.
Proof.
  unfold schema_of. induction (columns df) as [|c cs IH]; [done|].
  simpl. by rewrite IH.
Qed.

Lemma schema_of_types df : Forall (fun f => field_type f = "STRING") (schema_of df).
Proof.
  unfold schema_of. induction (columns df) as [|c cs IH]; simpl; by constructor.
Qed.

(** A written row has a value, NULL or not, under every name of the
    schema that a value of the row reaches. *)
Lemma load_row_column names : forall (cells : list (option string)) c,
  length names <= length cells -> c ∈ names ->
  is_Some (raw_column (zip names cells) c).
Proof.
  induction names as [|n names IH]; intros cells c Hlen Hc; [inversion Hc|].
  destruct cells as [|v cells]; simpl in Hlen; [lia|].
  simpl. destruct (String.eqb_spec n c) as [->|Hne]; [by eexists|].
  apply elem_of_cons in Hc as [->|Hc]; [done|].
  apply IH; [lia | done].
Qed.

(** X25: what the loader writes is what the trusted query reads.  For
    either descriptor of a run, the schema [main] builds from the
    normalised frame lists exactly the columns the trusted query of the
    index selects, in the order of the query, all of type STRING.  An
    upload that completes leaves the rows the raw table held in place and
    adds one row for each row [astype(str)] gives; whatever texts or
    missing values the cells are, each new row has exactly these columns,
    so the query finds every column it names. *)
Theorem loaded_rows_feed_trusted_query
    (astype_str : dataframe -> list (list (option string)))
    (dataset_uuid : string) (idx : Config.index)
    (file : workbook) (utcnow : Z) (df : dataframe)
    (job : option error) (store store' : raw_store)
    (Hidx : idx ∈ Config.indices dataset_uuid)
    (Hdf : process_excel_file file (Config.raw_table idx) (Config.sheet idx)
             (Config.columns idx) (Config.rows idx) utcnow = Ok df)
    (Hwidth : Forall (fun cells => length cells = length (columns df)) (astype_str df))
    (Hup : upload_to_bigquery astype_str job df (Config.raw_table idx) (schema_of df) store
           = (Ok (), store')) :
  map field_name (schema_of df) = (items_of (Config.transform idx)).*1 /\
  Forall (fun f => field_type f = "STRING") (schema_of df) /\
  exists new,
    store' !! Config.raw_table idx
      = Some (default [] (store !! Config.raw_table idx) ++ new) /\
    length new = length (astype_str df) /\
    Forall (fun r => r.*1 = (items_of (Config.transform idx)).*1 /\
                     forall item, item ∈ items_of (Config.transform idx) ->
                                  is_Some (raw_column r item.1)) new.
Proof.
  pose proof (descriptor_columns _ _ _ _ _ Hidx Hdf) as Hcols.
  split; [by rewrite schema_of_names|]. split; [apply schema_of_types|].
  unfold upload_to_bigquery in Hup. destruct job as [e|]; [discriminate|].
  injection Hup as <-.
  exists (load_rows astype_str (schema_of df) df). unfold raw_store.
  split; [by rewrite lookup_insert_eq|].
  unfold load_rows. split; [apply length_map|].
  apply Forall_forall. intros r (cells & -> & Hcells)%list_elem_of_fmap.
  pose proof (proj1 (Forall_forall _ _) Hwidth cells Hcells) as Hlen.
  unfold load_row. rewrite schema_of_names. simpl in Hlen. split.
  - rewrite <- Hcols. apply fst_zip. lia.
  - intros item Hitem. apply load_row_column; [lia|].
    rewrite Hcols. apply list_elem_of_fmap. by exists item.
Qed.

End LoaderMore.

Lemma loaded_rows_feed_trusted_query_witness :
  let df := Normalizer.mk_dataframe (Config.icf_columns ++ ["load_timestamp"])
              [Props.demo_icf_row ++ [Normalizer.CDatetime 0]] in
  let table_id := Config.raw_table (Config.icf_index "a1b2c3") in
  let store' := (Loader.upload_to_bigquery Props.demo_astype_str None df table_id
                   (Loader.schema_of df) ∅).2 in
  exists new,
    store' !! table_id = Some new /\ length new = 1 /\
    Forall (fun r => r.*1 = Config.icf_columns ++ ["load_timestamp"] /\
                     is_Some (Trusted.raw_column r "icf")) new.
Proof.
  intros df table_id store'.
  destruct (loaded_rows_feed_trusted_query Props.demo_astype_str
              "a1b2c3" (Config.icf_index "a1b2c3") Props.demo_icf_workbook 0 df
              None ∅ store')
    as (_ & _ & new & Hstore & Hlen & Hnew).
  - unfold Config.indices. apply elem_of_cons. right. apply list_elem_of_here.
  - reflexivity.
  - repeat constructor.
  - reflexivity.
  - exists new. split; [|split].
    + etrans; [exact Hstore|]. unfold Loader.raw_store. by rewrite lookup_empty.
    + exact Hlen.
    + eapply Forall_impl; [exact Hnew|]. intros r [Hnames Hfound].
      split; [exact Hnames|]. apply (Hfound ("icf", Trusted.CastFloat64)).
      unfold Props.items_of. cbn [Config.transform Config.icf_index].
      unfold Trusted.icf_items. apply elem_of_cons. right. apply list_elem_of_here.
Defined.
